(** * sx-community-data: the transformation pipeline of [src/index.ts]

    A shallow embedding of the employee row mapper, the master-data grouper,
    the photo resolver, the filter utilities, the secret check of the two
    endpoints and the client fetch facade, followed by the properties the
    specification states about them.

    Conventions of the embedding:
    - a JavaScript string is a [string]; each character stands for one
      code unit below 256;
    - a spreadsheet row is a [list string]; [row[i]] is [row !! i], where
      [None] is JavaScript's [undefined];
    - an object used as a dictionary is a [gmap string _] holding its own
      properties; an assignment under the key [__proto__] reaches the
      inherited setter of a plain object and creates no property;
    - [process.env] is the record [Env];
    - awaited calls to Google Drive, Google Sheets and [fetch] are answers
      supplied by a [Backend] (server side) or given as arguments (client
      side); every observable effect is appended to a trace. *)

From Stdlib Require Import Ascii String.
From stdpp Require Import base option list strings gmap fin_maps.

#[local] Set Warnings "-clear-no-such-hyp".

Local Open Scope string_scope.
Local Open Scope list_scope.

(** ** JavaScript values and string primitives *)

Module JS.

(** What a record field can hold: [string | string[]], or [undefined] when
    a destructured component is missing. *)
Inductive value :=
| Undefined
| Str (s : string)
| Arr (l : list string).

#[export] Instance value_eq_dec : EqDecision value.
Proof. solve_decision. Defined.

(** [ToBoolean] on a string: only the empty string is falsy. *)
Definition truthy (s : string) : bool :=
  match s with
  | EmptyString => false
  | String _ _ => true
  end.

(** [ToBoolean] on a possibly undefined string. *)
Definition truthy_opt (o : option string) : bool :=
  match o with
  | Some s => truthy s
  | None => false
  end.

(** [x || ''] on a possibly undefined string. *)
Definition or_empty (o : option string) : string :=
  match o with
  | Some s => if truthy s then s else ""
  | None => ""
  end.

(** A destructured array component: [undefined] when out of range. *)
Definition of_option (o : option string) : value :=
  match o with
  | Some s => Str s
  | None => Undefined
  end.

(** [`${x}`] on a possibly undefined string. *)
Definition template (o : option string) : string :=
  match o with
  | Some s => s
  | None => "undefined"
  end.

(** [s.split(sep)] for a one-character separator; never the empty list. *)
Fixpoint split (sep : ascii) (s : string) : list string :=
  match s with
  | EmptyString => [""]
  | String c s' =>
      if Ascii.eqb c sep then "" :: split sep s'
      else match split sep s' with
           | piece :: pieces => String c piece :: pieces
           | [] => [String c ""]
           end
  end.

(** [sep] does not occur in [s]. *)
Fixpoint lacks (sep : ascii) (s : string) : bool :=
  match s with
  | EmptyString => true
  | String c s' => negb (Ascii.eqb c sep) && lacks sep s'
  end.

(** WhiteSpace and LineTerminator code units below 256:
    TAB, LF, VT, FF, CR, SP and NBSP. *)
Definition is_whitespace (c : ascii) : bool :=
  match nat_of_ascii c with
  | 9 | 10 | 11 | 12 | 13 | 32 | 160 => true
  | _ => false
  end.

Fixpoint trimStart (s : string) : string :=
  match s with
  | EmptyString => ""
  | String c s' => if is_whitespace c then trimStart s' else s
  end.

Fixpoint trimEnd (s : string) : string :=
  match s with
  | EmptyString => ""
  | String c s' =>
      match trimEnd s' with
      | EmptyString => if is_whitespace c then "" else String c ""
      | r => String c r
      end
  end.

(** [s.trim()]. *)
Definition trim (s : string) : string := trimEnd (trimStart s).

(** Only whitespace. *)
Fixpoint blank (s : string) : bool :=
  match s with
  | EmptyString => true
  | String c s' => is_whitespace c && blank s'
  end.

(** The first and the last character are whitespace, when there are any. *)
Definition leadingSpace (s : string) : bool :=
  match s with
  | EmptyString => false
  | String c _ => is_whitespace c
  end.

Fixpoint trailingSpace (s : string) : bool :=
  match s with
  | EmptyString => false
  | String c EmptyString => is_whitespace c
  | String _ s' => trailingSpace s'
  end.

(** [s.startsWith(p)]. *)
Fixpoint startsWith (p s : string) : bool :=
  match p, s with
  | EmptyString, _ => true
  | String a p', String b s' => Ascii.eqb a b && startsWith p' s'
  | String _ _, EmptyString => false
  end.

(** [String.prototype.includes]: [sub] occurs in [s]. *)
Fixpoint str_includes (s sub : string) : bool :=
  startsWith sub s ||
  match s with
  | EmptyString => false
  | String _ s' => str_includes s' sub
  end.

(** [Array.prototype.includes] on an array of strings. *)
Definition arr_includes (l : list string) (x : string) : bool :=
  bool_decide (x ∈ l).

(** [arr.reduce((acc, x, index) => f(acc, x, index), init)], the index
    counted from [i]. *)
Fixpoint reduce_from {A B} (f : B → A → nat → B) (i : nat) (l : list A) (acc : B) : B :=
  match l with
  | [] => acc
  | x :: l' => reduce_from f (S i) l' (f acc x i)
  end.

Definition reduce {A B} (f : B → A → nat → B) (l : list A) (init : B) : B :=
  reduce_from f 0 l init.

End JS.

Import JS.

(** ** Configuration *)

(** The two variables of [process.env] the pipeline reads; an unset
    variable is [undefined]. *)
Record Env := {
  DRIVE_PHOTO_HOST : option string;
  API_SECRET_KEY : option string;
}.

(** ** Data model *)

Record ApiParam := {
  spreadsheetId : string;
  sheetRange : string;
  photoFolder : string;
}.

(** [title] of a category is [row[1]], which nothing guards: it may be
    undefined. *)
Record Category := {
  key : string;
  cat_title : option string;
  cat_photo : string;
}.

Record SubCategory := {
  title : string;
  photo : string;
}.

Record MasterData := {
  category : list Category;
  country : list SubCategory;
  role : list SubCategory;
  birthplace : list SubCategory;
  yearofbirth : list SubCategory;
  monthofbirth : list SubCategory;
  project : list SubCategory;
  club : list SubCategory;
  gender : list SubCategory;
  joiningyear : list SubCategory;
  office : list SubCategory;
}.

(** An employee is built as [{ [key: string]: string | string[] }]. *)
Abbreviation Employee := (gmap string value).

(** An entry of [res.data.files]; [id] and [name] are optional. *)
Record DriveFile := {
  file_id : option string;
  file_name : option string;
}.

(** ** Photo resolver *)

Definition getPhotoCdn (env : Env) (photos : gmap string string) (key : option string) : string :=
  match key ≫= (photos !!.) with
  | Some photoId =>
      if truthy photoId then template (DRIVE_PHOTO_HOST env) +:+ "/" +:+ photoId else ""
  | None => ""
  end.

(** The [forEach] of [listFilesInFolder]: one [fileMap.set] per entry that
    has both a name and an id. *)
Definition setFile (fileMap : gmap string string) (f : DriveFile) : gmap string string :=
  match file_name f, file_id f with
  | Some name, Some id =>
      if truthy name && truthy id then <[name := id]> fileMap else fileMap
  | _, _ => fileMap
  end.

(** [res.data.files?.forEach(...)] over a fresh [Map]. *)
Definition buildFileMap (files : option (list DriveFile)) : gmap string string :=
  match files with
  | Some fs => foldl setFile ∅ fs
  | None => ∅
  end.

(** ** Row mapper *)

Abbreviation Row := (list string).

(** [employee[key] = text] on an object literal, for a string [text]: an own
    property is created or overwritten, except under the key [__proto__],
    where the setter inherited from [Object.prototype] ignores a string and
    the object is left as it is. *)
Definition setProperty (employee : Employee) (key : string) (text : string) : Employee :=
  if bool_decide (key = "__proto__") then employee
  else <[key := Str text]> employee.

(** The callback of [headers.reduce] in [getAllEmployees]. In every branch
    but the last, [header] is one of the literals of the [switch]. *)
Definition employeeStep (env : Env) (photos : gmap string string) (row : Row)
    (employee : Employee) (header : string) (index : nat) : Employee :=
  if bool_decide (header = "photo") then
    <[header := Str (getPhotoCdn env photos (row !! index))]> employee
  else if bool_decide (header = "projects") || bool_decide (header = "club") then
    <[header := match row !! index with
                | Some cell => Arr (trim <$> split "," cell)
                | None => Arr []
                end]> employee
  else if bool_decide (header = "dob") then
    let dobValue := or_empty (row !! index) in
    let parts := split "/" dobValue in
    <[header := Str dobValue]>
      (<["yearofbirth" := of_option (parts !! 2)]>
         (<["monthofbirth" := of_option (parts !! 0)]> employee))
  else if bool_decide (header = "date_joined") then
    let dateJoined := or_empty (row !! index) in
    let parts := split "/" dateJoined in
    <[header := Str dateJoined]>
      (<["joiningyear" := of_option (parts !! 2)]> employee)
  else
    setProperty employee header (or_empty (row !! index)).

(** [headers.reduce(..., {})] for one data row. *)
Definition toEmployee (env : Env) (photos : gmap string string) (headers : list string)
    (row : Row) : Employee :=
  reduce (employeeStep env photos row) headers ∅.

(** [dataRows.map(row => headers.reduce(...))]. *)
Definition mapRows (env : Env) (photos : gmap string string) (headers : list string)
    (dataRows : list Row) : list Employee :=
  toEmployee env photos headers <$> dataRows.

(** ** Master data grouper *)

(** [if (label) arr.push(entry)]: the array is extended only for a defined,
    non-empty label. *)
Definition push_if {A} (label : option string) (entry : string → A) (arr : list A) : list A :=
  match label with
  | Some l => if truthy l then arr ++ [entry l] else arr
  | None => arr
  end.

(** The entry pushed for the group with photo column [photoCol]. *)
Definition subEntry (env : Env) (photos : gmap string string) (row : Row) (photoCol : nat)
    (label : string) : SubCategory :=
  {| title := label; photo := getPhotoCdn env photos (row !! photoCol) |}.

(** The body of [rows.slice(2).forEach(row => ...)]: eleven guarded pushes,
    each on its own array of [result]. *)
Definition groupRow (env : Env) (photos : gmap string string) (result : MasterData)
    (row : Row) : MasterData :=
  {| category :=
       push_if (row !! 0)
         (λ k, {| key := k; cat_title := row !! 1;
                  cat_photo := getPhotoCdn env photos (row !! 2) |})
         (category result);
     country := push_if (row !! 4) (subEntry env photos row 5) (country result);
     role := push_if (row !! 7) (subEntry env photos row 8) (role result);
     birthplace := push_if (row !! 10) (subEntry env photos row 11) (birthplace result);
     yearofbirth := push_if (row !! 13) (subEntry env photos row 14) (yearofbirth result);
     monthofbirth := push_if (row !! 16) (subEntry env photos row 17) (monthofbirth result);
     project := push_if (row !! 19) (subEntry env photos row 20) (project result);
     club := push_if (row !! 22) (subEntry env photos row 23) (club result);
     gender := push_if (row !! 25) (subEntry env photos row 26) (gender result);
     joiningyear := push_if (row !! 28) (subEntry env photos row 29) (joiningyear result);
     office := push_if (row !! 31) (subEntry env photos row 32) (office result) |}.

(** The initial [result] of [getMasterDataSource]. *)
Definition emptyMasterData : MasterData :=
  {| category := []; country := []; role := []; birthplace := [];
     yearofbirth := []; monthofbirth := []; project := []; club := [];
     gender := []; joiningyear := []; office := [] |}.

(** ** Filter utilities *)

(** [it[key]]: a missing property reads as [undefined]. *)
Definition field (it : Employee) (k : string) : value :=
  default Undefined (it !! k).

(** [v?.includes(x)] taken as a condition: [undefined] is falsy, an array
    looks for an element, a string for a substring. *)
Definition includes_opt (v : value) (x : string) : bool :=
  match v with
  | Undefined => false
  | Arr l => arr_includes l x
  | Str s => str_includes s x
  end.

(** [v === x] for a string [x]. *)
Definition strict_eq_str (v : value) (x : string) : bool :=
  match v with
  | Str s => bool_decide (s = x)
  | _ => false
  end.

Definition filterEmployee (categoryKey filterValue : string)
    (apiEmployees : list Employee) : list Employee :=
  if bool_decide (categoryKey = "club") || bool_decide (categoryKey = "projects") then
    List.filter (λ it, includes_opt (field it categoryKey) filterValue) apiEmployees
  else
    List.filter (λ it, strict_eq_str (field it categoryKey) filterValue) apiEmployees.

(** ** Effects: a trace of events and exceptions *)

(** A thrown value or a rejected promise carries a message. *)
Definition exn := string.

Inductive outcome (A : Type) :=
| Returned (a : A)
| Thrown (e : exn).
Arguments Returned {A} a.
Arguments Thrown {A} e.

(** A computation over events [E]: the events it emitted, in order, and how
    it ended. *)
Definition M (E A : Type) : Type := list E * outcome A.

Definition throw {E A} (e : exn) : M E A := ([], Thrown e).

Definition emit {E} (ev : E) : M E unit := ([ev], Returned tt).

Definition lift {E A} (o : outcome A) : M E A := ([], o).

#[export] Instance M_ret {E} : MRet (M E) := λ A a, ([], Returned a).

#[export] Instance M_bind {E} : MBind (M E) := λ A B f m,
  match m.2 with
  | Returned a => (m.1 ++ (f a).1, (f a).2)
  | Thrown e => (m.1, Thrown e)
  end.

(** [try { m } catch (e) { handler e }]. *)
Definition tryCatch {E A} (m : M E A) (handler : exn → M E A) : M E A :=
  match m.2 with
  | Returned a => m
  | Thrown e => (m.1 ++ (handler e).1, (handler e).2)
  end.

(** ** Server side *)

(** A header or query value as the handler sees it; a missing entry of the
    dictionary is [undefined]. *)
Inductive reqval :=
| Null
| StrV (s : string)
| ArrV (l : list string).

Record Request := {
  req_headers : gmap string reqval;
  req_query : gmap string reqval;
}.

Inductive Payload :=
| ErrorPayload (error_code error_message : string)
| EmployeesPayload (employees : list Employee)
| MasterDataPayload (masterData : MasterData).

Inductive ServerEvent :=
| DriveFilesList (q fields : string)
| SheetsValuesGet (spreadsheet range : string)
| ConsoleLog (msg : string)
| ConsoleError (args : list string)
| ResStatus (code : nat)
| ResJson (body : Payload).

(** The answers of the two Google services: [res.data.files] for a Drive
    query and [response.data.values] for a Sheets range, or a failure. *)
Record Backend := {
  drive_files_list : string → outcome (option (list DriveFile));
  sheets_values_get : string → string → outcome (option (list Row));
}.

(** The [q] of the Drive query. *)
Definition driveQuery (folderId : string) : string :=
  "'" +:+ folderId +:+ "' in parents and trashed=false".

Definition listFilesInFolder (backend : Backend) (folderId : string)
    : M ServerEvent (gmap string string) :=
  let q := driveQuery folderId in
  emit (DriveFilesList q "files(id, name)");;
  files ← lift (drive_files_list backend q);
  let fileMap := buildFileMap files in
  (if bool_decide (size fileMap = 0) then emit (ConsoleLog "No files found.") else mret tt);;
  mret fileMap.

(** [a ?? b]: [b] only when [a] is [null] or [undefined]. *)
Definition nullish (a b : option reqval) : option reqval :=
  match a with
  | None | Some Null => b
  | Some _ => a
  end.

(** [a === process.env.X]: equal strings, or both [undefined]. *)
Definition strict_eq_env (a : option reqval) (b : option string) : bool :=
  match a, b with
  | None, None => true
  | Some (StrV s), Some s' => bool_decide (s = s')
  | _, _ => false
  end.

Definition secretApi (req : Request) : option reqval :=
  nullish (req_headers req !! "x-secret-key") (req_query req !! "x-secret-key").

Definition validateSecretKey (env : Env) (req : Request) : M ServerEvent bool :=
  if negb (strict_eq_env (secretApi req) (API_SECRET_KEY env)) then
    emit (ResStatus 401);;
    emit (ResJson (ErrorPayload "unauthorized" "Invalid secret key"));;
    mret false
  else mret true.

Definition getAllEmployees (env : Env) (backend : Backend) (param : ApiParam)
    : M ServerEvent (list Employee) :=
  photos ← listFilesInFolder backend (photoFolder param);
  tryCatch
    (emit (SheetsValuesGet (spreadsheetId param) (sheetRange param));;
     rows ← lift (sheets_values_get backend (spreadsheetId param) (sheetRange param));
     match rows with
     | None | Some [] => emit (ConsoleLog "No employee data found.");; mret []
     | Some (headers :: dataRows) => mret (mapRows env photos headers dataRows)
     end)
    (λ err, emit (ConsoleError ["Error retrieving employee data:"; err]);; throw err).

Definition employeeAPI (env : Env) (backend : Backend) (req : Request) (param : ApiParam)
    : M ServerEvent unit :=
  valid ← validateSecretKey env req;
  if negb valid then mret tt
  else
    tryCatch
      (employees ← getAllEmployees env backend param;
       emit (ResStatus 200);;
       emit (ResJson (EmployeesPayload employees)))
      (λ error,
         emit (ConsoleError [error]);;
         emit (ResStatus 500);;
         emit (ResJson (ErrorPayload "00001" "Internal Server Error"))).

Definition getMasterDataSource (env : Env) (backend : Backend) (param : ApiParam)
    : M ServerEvent MasterData :=
  photos ← listFilesInFolder backend (photoFolder param);
  tryCatch
    (let result := emptyMasterData in
     emit (SheetsValuesGet (spreadsheetId param) (sheetRange param));;
     rows ← lift (sheets_values_get backend (spreadsheetId param) (sheetRange param));
     match rows with
     | None => emit (ConsoleLog "No data found.");; mret result
     | Some rs =>
         if (length rs <=? 1)%nat then emit (ConsoleLog "No data found.");; mret result
         else mret (foldl (groupRow env photos) result (drop 2 rs))
     end)
    (λ err, emit (ConsoleError ["Error retrieving data source:"; err]);; throw err).

Definition masterDataAPI (env : Env) (backend : Backend) (req : Request) (param : ApiParam)
    : M ServerEvent unit :=
  valid ← validateSecretKey env req;
  if negb valid then mret tt
  else
    tryCatch
      (masterData ← getMasterDataSource env backend param;
       emit (ResStatus 200);;
       emit (ResJson (MasterDataPayload masterData)))
      (λ error,
         emit (ConsoleError [error]);;
         emit (ResStatus 500);;
         emit (ResJson (ErrorPayload "00002" "Internal Server Error"))).

(** ** Client side *)

Inductive ClientEvent :=
| Fetch (url method : string) (headers : list (string * string))
| ClientConsoleError (args : list string).

(** [Promise.all([p1, p2])]: both values, or the rejection that came first;
    [firstWins] says which one did when both reject. *)
Definition promiseAll {A B} (firstWins : bool) (p1 : outcome A) (p2 : outcome B)
    : outcome (A * B) :=
  match p1, p2 with
  | Returned a, Returned b => Returned (a, b)
  | Thrown e, Returned _ => Thrown e
  | Returned _, Thrown e => Thrown e
  | Thrown e1, Thrown e2 => Thrown (if firstWins then e1 else e2)
  end.

Section Client.

(** A parsed JSON body, and the text of [`${errorData.error_message}`],
    which throws when [errorData] is [null]. *)
Variable J : Type.
Variable error_message : J → outcome string.

(** What the code reads of a [Response]: [ok], [status], and the result of
    [await response.json()]. *)
Record Response := {
  ok : bool;
  status : nat;
  json : outcome J;
}.

Definition handleResponse (response : Response) : M ClientEvent J :=
  if negb (ok response) then
    errorData ← lift (json response);
    if bool_decide (status response = 401) then
      msg ← lift (error_message errorData);
      throw ("Unauthorized: " +:+ msg)
    else if bool_decide (status response = 500) then
      msg ← lift (error_message errorData);
      throw ("Internal Server Error: " +:+ msg)
    else
      msg ← lift (error_message errorData);
      throw ("Error: " +:+ msg)
  else lift (json response).

Definition requestHeaders (apiKey : string) : list (string * string) :=
  [("Content-Type", "application/json"); ("x-secret-key", apiKey)].

(** [employeesFetch] and [masterDataFetch] are what the two [fetch] promises
    settle to; [null] is [None]. *)
Definition fetchApis (apiKey : string) (firstWins : bool)
    (employeesFetch masterDataFetch : outcome Response) : M ClientEvent (option (J * J)) :=
  tryCatch
    (emit (Fetch "/api/employee" "GET" (requestHeaders apiKey));;
     emit (Fetch "/api/master-data" "GET" (requestHeaders apiKey));;
     responses ← lift (promiseAll firstWins employeesFetch masterDataFetch);
     employees ← handleResponse responses.1;
     masterData ← handleResponse responses.2;
     mret (Some (employees, masterData)))
    (λ error,
       emit (ClientConsoleError ["An error occurred:"; error]);;
       mret None).

End Client.

Arguments ok {J} _.
Arguments status {J} _.
Arguments json {J} _.

(** A fetch that rejected, or whose response is not [ok]. *)
Definition unsuccessful {J} (r : outcome (Response J)) : bool :=
  match r with
  | Thrown _ => true
  | Returned response => negb (ok response)
  end.

(** ** Specification-side definitions *)

(** The properties one step of the row reducer assigns for a header: the
    header itself, and the derived fields of the two date headers; none for
    the header [__proto__]. *)
Definition writes (header : string) : list string :=
  if bool_decide (header = "dob") then ["monthofbirth"; "yearofbirth"; header]
  else if bool_decide (header = "date_joined") then ["joiningyear"; header]
  else if bool_decide (header = "__proto__") then []
  else [header].


(** What the specification says a row contributes to the category list: an
    entry with key, title and resolved photo when column 0 is non-empty,
    nothing otherwise. *)
Definition categoryEntry (env : Env) (photos : gmap string string) (row : Row)
    : option Category :=
  if truthy_opt (row !! 0) then
    Some {| key := default "" (row !! 0); cat_title := row !! 1;
            cat_photo := getPhotoCdn env photos (row !! 2) |}
  else None.

(** What the specification says a row contributes to the group with label
    column [labelCol] and photo column [photoCol]. *)
Definition groupEntry (env : Env) (photos : gmap string string) (labelCol photoCol : nat)
    (row : Row) : option SubCategory :=
  if truthy_opt (row !! labelCol) then
    Some {| title := default "" (row !! labelCol);
            photo := getPhotoCdn env photos (row !! photoCol) |}
  else None.

(** The match of the specification's [filterEmployee]: the sequence field
    contains the value for [projects] and [club], the scalar field equals
    the value for any other field. *)
Definition matchesFilter (fieldName filterValue : string) (e : Employee) : bool :=
  if bool_decide (fieldName = "projects") || bool_decide (fieldName = "club") then
    match e !! fieldName with
    | Some (Arr l) => bool_decide (filterValue ∈ l)
    | _ => false
    end
  else bool_decide (e !! fieldName = Some (Str filterValue)).

(** The [Employee] interface declares [projects] and [club] as [string[]]:
    neither holds a scalar string. *)
Definition sequenceFields (e : Employee) : Prop :=
  ∀ k s, k = "projects" ∨ k = "club" → e !! k ≠ Some (Str s).

(** The calls that reach a data source. *)
Definition dataSourceCall (ev : ServerEvent) : bool :=
  match ev with
  | DriveFilesList _ _ | SheetsValuesGet _ _ => true
  | _ => false
  end.

(** The fixed 401 answer. *)
Definition unauthorized : list ServerEvent :=
  [ResStatus 401; ResJson (ErrorPayload "unauthorized" "Invalid secret key")].

(** ** Concrete inputs for the checks *)

Definition env0 : Env :=
  {| DRIVE_PHOTO_HOST := Some "https://cdn.example"; API_SECRET_KEY := Some "s3cret" |}.

Definition param0 : ApiParam :=
  {| spreadsheetId := "sheet"; sheetRange := "A1:AG"; photoFolder := "folder" |}.

Definition files0 : option (list DriveFile) :=
  Some [ {| file_id := Some "id1"; file_name := Some "p.png" |};
         {| file_id := None; file_name := Some "q.png" |} ].

(** A backend that answers every Drive query with [files0] and every Sheets
    range with [rows]. *)
Definition backend0 (rows : option (list Row)) : Backend :=
  {| drive_files_list := λ _, Returned files0;
     sheets_values_get := λ _ _, Returned rows |}.

(** ** Definitions for the further properties *)

(** The field names of a record built under the header row [headers]. *)
Definition fieldSet (headers : list string) : gset string :=
  list_to_set (headers ≫= writes).

(** A piece that neither [split(',')] nor [trim] changes: no comma, no
    whitespace at either end. *)
Definition clean (piece : string) : bool :=
  lacks "," piece && negb (leadingSpace piece) && negb (trailingSpace piece).

(** An entry [listFilesInFolder] stores: a non-empty name and a non-empty
    identifier. *)
Definition validFile (f : DriveFile) : bool :=
  truthy_opt (file_name f) && truthy_opt (file_id f).

(** The identifier of the last stored entry named [name]. *)
Definition lastNamed (name : string) (fs : list DriveFile) : option string :=
  last (omap (λ f, if validFile f && bool_decide (file_name f = Some name)
                   then file_id f else None) fs).

(** The events that answer the HTTP request. *)
Definition responseEvent (ev : ServerEvent) : bool :=
  match ev with
  | ResStatus _ | ResJson _ => true
  | _ => false
  end.

(** The one Drive query of [listFilesInFolder], and its events when the
    query answers with [files]. *)
Definition listingEvent (folderId : string) : ServerEvent :=
  DriveFilesList (driveQuery folderId) "files(id, name)".

Definition listedEvents (folderId : string) (files : option (list DriveFile))
    : list ServerEvent :=
  listingEvent folderId
    :: (if bool_decide (size (buildFileMap files) = 0)
        then [ConsoleLog "No files found."] else []).

(** An endpoint run that does not raise and answers the request exactly
    once, as its last two events, with status 200, 401 or 500. *)
Definition answersOnce (run : M ServerEvent unit) : Prop :=
  run.2 = Returned tt ∧
  ∃ before code body,
    run.1 = before ++ [ResStatus code; ResJson body] ∧
    Forall (λ ev, responseEvent ev = false) before ∧
    code ∈ [200; 401; 500].

(** The ten lists of a [MasterData] other than [category]. *)
Definition subLists (md : MasterData) : list (list SubCategory) :=
  [country md; role md; birthplace md; yearofbirth md; monthofbirth md;
   project md; club md; gender md; joiningyear md; office md].

(** The text [handleResponse] puts before the error message of a response
    that is not [ok]. *)
Definition statusPrefix (status : nat) : string :=
  if bool_decide (status = 401) then "Unauthorized: "
  else if bool_decide (status = 500) then "Internal Server Error: "
  else "Error: ".

(** The condition [filterEmployee] filters by. *)
Definition keeps (categoryKey filterValue : string) (it : Employee) : bool :=
  if bool_decide (categoryKey = "club") || bool_decide (categoryKey = "projects")
  then includes_opt (field it categoryKey) filterValue
  else strict_eq_str (field it categoryKey) filterValue.

(** The rows whose cell in column [i] is [v], a missing cell counting as
    the empty string; and the rows whose cell in column [i], split on commas
    and trimmed, has [v] among its pieces. *)
Definition cellIs (i : nat) (v : string) (row : Row) : bool :=
  bool_decide (default "" (row !! i) = v).

Definition cellLists (i : nat) (v : string) (row : Row) : bool :=
  match row !! i with
  | Some cell => bool_decide (v ∈ trim <$> split "," cell)
  | None => false
  end.

(** The [fetch] events. *)
Definition fetchEvent (ev : ClientEvent) : bool :=
  match ev with
  | Fetch _ _ _ => true
  | ClientConsoleError _ => false
  end.

(** * Properties *)

(** ** String primitives *)

Section Strings.

Lemma split_nonempty sep s : ∃ piece pieces, split sep s = piece :: pieces.
Proof.
  induction s as [|c s IH]; simpl; [by eauto|].
  destruct (Ascii.eqb c sep); [by eauto|].
  destruct IH as (p & ps & ->). by eauto.
Qed.


Lemma split_lacks sep s : lacks sep s = true → split sep s = [s].
Proof.
  induction s as [|c s IH]; simpl; [done|].
  destruct (Ascii.eqb c sep); simpl; [done|].
  intros Hs. by rewrite (IH Hs).
Qed.

(** [trimStart] drops a blank prefix and nothing else. *)
Lemma trimStart_spec s :
  ∃ l, s = l +:+ trimStart s ∧ blank l = true ∧ leadingSpace (trimStart s) = false.
Proof.
  induction s as [|c s (l & Hs & Hl & Hlead)]; simpl; [by exists ""|].
  destruct (is_whitespace c) eqn:Hc.
  - exists (String c l). simpl. rewrite Hc, Hl. split; [|done].
    change (String c s = String c (l +:+ trimStart s)). by f_equal.
  - exists "". simpl. by rewrite Hc.
Qed.

(** [trimEnd] drops a blank suffix and nothing else. *)
Lemma trimEnd_spec s :
  ∃ r, s = trimEnd s +:+ r ∧ blank r = true ∧ trailingSpace (trimEnd s) = false.
Proof.
  induction s as [|c s (r & Hs & Hr & Htrail)]; simpl; [by exists ""|].
  destruct (trimEnd s) as [|c' t] eqn:Ht.
  - simpl in Hs. subst s. destruct (is_whitespace c) eqn:Hc.
    + exists (String c r). simpl. by rewrite Hc, Hr.
    + exists r. simpl. by rewrite Hc.
  - exists r. split_and!; [by rewrite Hs at 1|done|done].
Qed.

Lemma trimEnd_leading s : leadingSpace s = false → leadingSpace (trimEnd s) = false.
Proof.
  destruct s as [|c s]; simpl; [done|]. intros Hc.
  destruct (trimEnd s); simpl; by rewrite ?Hc.
Qed.

(** [trim] removes the surrounding whitespace and keeps the rest. *)
Lemma trim_spec s :
  ∃ l r, s = l +:+ trim s +:+ r ∧ blank l = true ∧ blank r = true ∧
         leadingSpace (trim s) = false ∧ trailingSpace (trim s) = false.
Proof.
  destruct (trimStart_spec s) as (l & Hs & Hl & Hlead).
  destruct (trimEnd_spec (trimStart s)) as (r & Ht & Hr & Htrail).
  exists l, r. unfold trim. split_and!; try done.
  - by rewrite <-Ht.
  - by apply trimEnd_leading.
Qed.

End Strings.

Example split_date : split "/" "5/20/1990" = ["5"; "20"; "1990"].
Proof. reflexivity. Qed.

Example split_empty : split "," "" = [""].
Proof. reflexivity. Qed.

Example split_trailing : split "," "a,,b," = ["a"; ""; "b"; ""].
Proof. reflexivity. Qed.

Example trim_both : trim "  a b " = "a b".
Proof. reflexivity. Qed.

Example trim_blank : trim "   " = "".
Proof. reflexivity. Qed.

(** ** Row mapper *)

Section RowMapper.

Context (env : Env) (photos : gmap string string).

Ltac step_cases :=
  unfold employeeStep, setProperty, writes in *;
  repeat (case_bool_decide; simplify_eq/=).

Lemma employeeStep_other row employee header index k :
  k ∉ writes header →
  employeeStep env photos row employee header index !! k = employee !! k.
Proof.
  intros Hk. step_cases;
    repeat (rewrite lookup_insert_ne; [|set_solver]); done.
Qed.



Lemma reduce_from_app {A B} (f : B → A → nat → B) i l1 l2 acc :
  reduce_from f i (l1 ++ l2) acc = reduce_from f (i + length l1) l2 (reduce_from f i l1 acc).
Proof.
  revert i acc. induction l1 as [|x l1 IH]; intros i acc; simpl.
  - by rewrite Nat.add_0_r.
  - rewrite IH. f_equal. lia.
Qed.

Lemma reduce_other row headers i employee k :
  (∀ h, h ∈ headers → k ∉ writes h) →
  reduce_from (employeeStep env photos row) i headers employee !! k = employee !! k.
Proof.
  revert i employee. induction headers as [|h hs IH]; intros i employee Hk; simpl; [done|].
  rewrite IH; [|intros; apply Hk; by right].
  apply employeeStep_other, Hk. by left.
Qed.



(** The last header that writes [k] decides the field [k]. *)
Lemma toEmployee_last_write row H1 h H2 k :
  (∀ h', h' ∈ H2 → k ∉ writes h') →
  toEmployee env photos (H1 ++ h :: H2) row !! k
  = employeeStep env photos row (toEmployee env photos H1 row) h (length H1) !! k.
Proof.
  intros Hk. unfold toEmployee, reduce.
  rewrite reduce_from_app. simpl. by rewrite reduce_other.
Qed.

(** A position [i] holding [h] none of whose later headers writes [k]. *)
Lemma last_write_split (headers : list string) i h k :
  headers !! i = Some h →
  (∀ j h', i < j → headers !! j = Some h' → k ∉ writes h') →
  ∃ H1 H2, headers = H1 ++ h :: H2 ∧ length H1 = i ∧ ∀ h', h' ∈ H2 → k ∉ writes h'.
Proof.
  intros Hi Hlater. exists (take i headers), (drop (S i) headers).
  assert (i < length headers) by (by eapply lookup_lt_Some).
  split_and!.
  - symmetry. by apply take_drop_middle.
  - rewrite length_take. lia.
  - intros h' [j Hj]%list_elem_of_lookup. rewrite lookup_drop in Hj.
    apply (Hlater (S i + j)); [lia|done].
Qed.



(** [projects] and [club] never hold a scalar. *)
Lemma employeeStep_multi row employee header index k s :
  k = "projects" ∨ k = "club" →
  (∀ s', employee !! k ≠ Some (Str s')) →
  employeeStep env photos row employee header index !! k ≠ Some (Str s).
Proof.
  intros Hk He. specialize (He s).
  destruct Hk as [-> | ->]; step_cases;
    repeat (rewrite lookup_insert; case_decide; [simplify_eq/=; by repeat case_match|]);
    done.
Qed.

Lemma toEmployee_multi headers row k s :
  k = "projects" ∨ k = "club" →
  toEmployee env photos headers row !! k ≠ Some (Str s).
Proof.
  intros Hk. unfold toEmployee, reduce.
  assert (∀ s', (∅ : Employee) !! k ≠ Some (Str s')) as Hinit by (intros; by rewrite lookup_empty).
  revert Hinit. generalize (∅ : Employee) 0 s.
  induction headers as [|h hs IH]; intros employee i s0 He; simpl; [done|].
  apply IH. intros s'. apply employeeStep_multi; [exact Hk|exact He].
Qed.

End RowMapper.

(** ** Running the server-side calls *)

Section Runs.

Context (env : Env) (backend : Backend) (param : ApiParam).

Ltac run := unfold mbind, M_bind, mret, M_ret, tryCatch, lift, emit, throw; simpl.

Lemma bind_returned {E A B} (m : M E A) (f : A → M E B) a :
  m.2 = Returned a → (m ≫= f).2 = (f a).2.
Proof. unfold mbind, M_bind. by intros ->. Qed.

Lemma listFilesInFolder_returns folderId files :
  drive_files_list backend (driveQuery folderId) = Returned files →
  (listFilesInFolder backend folderId).2 = Returned (buildFileMap files).
Proof.
  unfold listFilesInFolder. intros Hd. run. rewrite Hd. simpl.
  by case_bool_decide.
Qed.

Lemma getAllEmployees_returns files rows :
  drive_files_list backend (driveQuery (photoFolder param)) = Returned files →
  sheets_values_get backend (spreadsheetId param) (sheetRange param) = Returned rows →
  (getAllEmployees env backend param).2
  = Returned match rows with
             | None | Some [] => []
             | Some (headers :: dataRows) => mapRows env (buildFileMap files) headers dataRows
             end.
Proof.
  intros Hd Hs. unfold getAllEmployees.
  rewrite (bind_returned _ _ _ (listFilesInFolder_returns _ _ Hd)).
  run. rewrite Hs. simpl.
  by destruct rows as [[|headers dataRows]|].
Qed.

Lemma getMasterDataSource_returns files rows :
  drive_files_list backend (driveQuery (photoFolder param)) = Returned files →
  sheets_values_get backend (spreadsheetId param) (sheetRange param) = Returned rows →
  (getMasterDataSource env backend param).2
  = Returned match rows with
             | None => emptyMasterData
             | Some rs =>
                 if (length rs <=? 1)%nat then emptyMasterData
                 else foldl (groupRow env (buildFileMap files)) emptyMasterData (drop 2 rs)
             end.
Proof.
  intros Hd Hs. unfold getMasterDataSource.
  rewrite (bind_returned _ _ _ (listFilesInFolder_returns _ _ Hd)).
  run. rewrite Hs. simpl.
  destruct rows as [rs|]; [|done]. by destruct (length rs <=? 1)%nat.
Qed.

End Runs.

(** ** Claims about the row mapper *)




(** C2. The code does not do what the claim says. For a row without a [dob]
    cell the raw value and [monthofbirth] are the empty string, as claimed,
    but [yearofbirth] is left [undefined]; likewise [joiningyear] without a
    [date_joined] cell. For a [dob] cell without any [/], [monthofbirth] is
    the whole cell and [yearofbirth] again [undefined]. The [Employee] type
    declares the three derived fields as strings. *)
Theorem blank_dob_leaves_year_undefined :
  let absent := toEmployee env0 ∅ ["name"; "dob"; "date_joined"] ["Ann"] in
  let malformed := toEmployee env0 ∅ ["name"; "dob"; "date_joined"] ["Ann"; "19900520"] in
  absent !! "dob" = Some (Str "") ∧
  absent !! "monthofbirth" = Some (Str "") ∧
  absent !! "yearofbirth" = Some Undefined ∧
  absent !! "yearofbirth" ≠ Some (Str "") ∧
  absent !! "joiningyear" = Some Undefined ∧
  absent !! "joiningyear" ≠ Some (Str "") ∧
  malformed !! "monthofbirth" = Some (Str "19900520") ∧
  malformed !! "monthofbirth" ≠ Some (Str "") ∧
  malformed !! "yearofbirth" = Some Undefined ∧
  malformed !! "yearofbirth" ≠ Some (Str "").
Proof. by vm_compute. Qed.

(** C3. The code does not do what the claim says for an empty cell: an
    absent [projects] or [club] cell gives the empty sequence and the cell
    [A, B,C] its three trimmed pieces, as claimed, but an empty cell gives
    the one-element sequence holding the empty string, because
    [''.split(',')] is [['']] and the fallback only covers a missing value. *)
Theorem empty_cell_not_empty_sequence :
  let absent := toEmployee env0 ∅ ["name"; "projects"; "club"] ["Ann"; "A, B,C"] in
  let empty := toEmployee env0 ∅ ["projects"; "club"; "name"] [""; ""; "Ann"] in
  absent !! "projects" = Some (Arr ["A"; "B"; "C"]) ∧
  absent !! "club" = Some (Arr []) ∧
  empty !! "projects" = Some (Arr [""]) ∧
  empty !! "projects" ≠ Some (Arr []) ∧
  empty !! "club" = Some (Arr [""]) ∧
  empty !! "club" ≠ Some (Arr []).
Proof. by vm_compute. Qed.

(** ** Photo resolver *)

(** [listFilesInFolder] never stores an empty name or an empty identifier. *)
Lemma buildFileMap_entries files :
  buildFileMap files !! "" = None ∧
  ∀ k id, buildFileMap files !! k = Some id → truthy id = true.
Proof.
  destruct files as [fs|]; simpl; [|by split; intros; simplify_map_eq].
  assert (∀ m : gmap string string,
            (m !! "" = None ∧ ∀ k id, m !! k = Some id → truthy id = true) →
            foldl setFile m fs !! "" = None ∧
            ∀ k id, foldl setFile m fs !! k = Some id → truthy id = true) as Hinv.
  { induction fs as [|f fs IH]; intros m Hm; simpl; [done|].
    apply IH. destruct Hm as [Hempty Hids]. unfold setFile.
    destruct (file_name f) as [name|], (file_id f) as [id|]; try done.
    destruct (truthy name) eqn:Hname, (truthy id) eqn:Hid; simpl; try done.
    split.
    - rewrite lookup_insert_ne; [done|]. by intros ->.
    - intros k id'. rewrite lookup_insert. case_decide; [naive_solver|by apply Hids]. }
  apply Hinv. by split; intros; simplify_map_eq.
Qed.

(** C4. For the lookup built from any folder listing and any key,
    [getPhotoCdn] returns the empty string for the empty key, for an
    undefined key, for a key absent from the lookup, and whenever the lookup
    is empty; for a key of the lookup it returns the text of the configured
    host, a [/] and the stored identifier. *)
Theorem getPhotoCdn_resolve env (files : option (list DriveFile)) (key : string) :
  let photos := buildFileMap files in
  getPhotoCdn env photos (Some "") = "" ∧
  getPhotoCdn env photos None = "" ∧
  (photos !! key = None → getPhotoCdn env photos (Some key) = "") ∧
  (photos = ∅ → getPhotoCdn env photos (Some key) = "") ∧
  (∀ id, photos !! key = Some id →
     getPhotoCdn env photos (Some key) = template (DRIVE_PHOTO_HOST env) +:+ "/" +:+ id ∧
     ∀ host, DRIVE_PHOTO_HOST env = Some host →
             getPhotoCdn env photos (Some key) = host +:+ "/" +:+ id).
Proof.
  intros photos. destruct (buildFileMap_entries files) as [Hempty Hids].
  fold photos in Hempty, Hids. unfold getPhotoCdn. simpl. split_and!.
  - by rewrite Hempty.
  - done.
  - by intros ->.
  - intros ->. by rewrite lookup_empty.
  - intros id Hid. rewrite Hid, (Hids _ _ Hid). split; [done|].
    by intros host ->.
Qed.

Lemma getPhotoCdn_resolve_witness :
  getPhotoCdn env0 (buildFileMap files0) (Some "missing") = "" ∧
  getPhotoCdn env0 (buildFileMap None) (Some "p.png") = "" ∧
  getPhotoCdn env0 (buildFileMap files0) (Some "p.png") = "https://cdn.example/id1".
Proof.
  destruct (getPhotoCdn_resolve env0 files0 "missing") as (_ & _ & Habsent & _).
  destruct (getPhotoCdn_resolve env0 None "p.png") as (_ & _ & _ & Hnone & _).
  destruct (getPhotoCdn_resolve env0 files0 "p.png") as (_ & _ & _ & _ & Hfound).
  split_and!.
  - by apply Habsent.
  - by apply Hnone.
  - destruct (Hfound "id1") as [_ Hhost]; [reflexivity|].
    by apply (Hhost "https://cdn.example").
Defined.

(** ** Master data grouper *)

Section Grouper.

Context (env : Env) (photos : gmap string string).

Lemma push_if_category row (arr : list Category) :
  push_if (row !! 0)
    (λ k, {| key := k; cat_title := row !! 1;
             cat_photo := getPhotoCdn env photos (row !! 2) |}) arr
  = arr ++ option_list (categoryEntry env photos row).
Proof.
  unfold push_if, categoryEntry.
  destruct (row !! 0) as [[|c l]|]; simpl; by rewrite ?app_nil_r.
Qed.

Lemma push_if_group row labelCol photoCol (arr : list SubCategory) :
  push_if (row !! labelCol) (subEntry env photos row photoCol) arr
  = arr ++ option_list (groupEntry env photos labelCol photoCol row).
Proof.
  unfold push_if, groupEntry, subEntry.
  destruct (row !! labelCol) as [[|c l]|]; simpl; by rewrite ?app_nil_r.
Qed.

Lemma omap_cons_option_list {A B} (f : A → option B) x l :
  omap f (x :: l) = option_list (f x) ++ omap f l.
Proof. simpl. by destruct (f x). Qed.

(** The eleven lists after the loop: each is what it was, followed by the
    entries of its own group, row by row. *)
Lemma foldl_groupRow result rows :
  foldl (groupRow env photos) result rows =
  {| category := category result ++ omap (categoryEntry env photos) rows;
     country := country result ++ omap (groupEntry env photos 4 5) rows;
     role := role result ++ omap (groupEntry env photos 7 8) rows;
     birthplace := birthplace result ++ omap (groupEntry env photos 10 11) rows;
     yearofbirth := yearofbirth result ++ omap (groupEntry env photos 13 14) rows;
     monthofbirth := monthofbirth result ++ omap (groupEntry env photos 16 17) rows;
     project := project result ++ omap (groupEntry env photos 19 20) rows;
     club := club result ++ omap (groupEntry env photos 22 23) rows;
     gender := gender result ++ omap (groupEntry env photos 25 26) rows;
     joiningyear := joiningyear result ++ omap (groupEntry env photos 28 29) rows;
     office := office result ++ omap (groupEntry env photos 31 32) rows |}.
Proof.
  revert result. induction rows as [|row rows IH]; intros result.
  - destruct result. simpl. by rewrite !app_nil_r.
  - change (foldl (groupRow env photos) result (row :: rows))
      with (foldl (groupRow env photos) (groupRow env photos result row) rows).
    rewrite IH. rewrite !omap_cons_option_list. unfold groupRow; cbn [category country role
      birthplace yearofbirth monthofbirth project club gender joiningyear office].
    rewrite push_if_category, !push_if_group. by rewrite <-!app_assoc.
Qed.

End Grouper.

(** C5. When the two service calls answer and the grid has at most one row
    (no grid at all, the empty grid, or a single row), [getMasterDataSource]
    returns, without raising, a [MasterData] whose eleven lists are empty. *)
Theorem getMasterDataSource_short_grid env backend param files (rows : option (list Row)) :
  drive_files_list backend (driveQuery (photoFolder param)) = Returned files →
  sheets_values_get backend (spreadsheetId param) (sheetRange param) = Returned rows →
  (length (default [] rows) ≤ 1)%nat →
  ∃ md, (getMasterDataSource env backend param).2 = Returned md ∧
        category md = [] ∧ country md = [] ∧ role md = [] ∧ birthplace md = [] ∧
        yearofbirth md = [] ∧ monthofbirth md = [] ∧ project md = [] ∧ club md = [] ∧
        gender md = [] ∧ joiningyear md = [] ∧ office md = [].
Proof.
  intros Hd Hs Hlen. exists emptyMasterData.
  rewrite (getMasterDataSource_returns env backend param files rows Hd Hs).
  split; [|by split_and!].
  destruct rows as [rs|]; [|done]. simpl in Hlen.
  by destruct (Nat.leb_spec (length rs) 1); [|lia].
Qed.

Lemma getMasterDataSource_short_grid_witness :
  ∃ md, (getMasterDataSource env0 (backend0 (Some [["Category"; "Title"]])) param0).2
        = Returned md ∧
        category md = [] ∧ country md = [] ∧ role md = [] ∧ birthplace md = [] ∧
        yearofbirth md = [] ∧ monthofbirth md = [] ∧ project md = [] ∧ club md = [] ∧
        gender md = [] ∧ joiningyear md = [] ∧ office md = [].
Proof.
  apply (getMasterDataSource_short_grid env0 (backend0 (Some [["Category"; "Title"]]))
           param0 files0 (Some [["Category"; "Title"]])); [reflexivity|reflexivity|].
  simpl. lia.
Defined.

(** C6. When the two service calls answer with a grid, each of the eleven
    lists of the result holds, in row order, exactly the entries of its own
    group for the rows past the first two: a row adds an entry to a list if
    and only if that group's label column is non-empty in the row, whatever
    the other columns hold. In particular a row with an empty column 0 and a
    non-empty column 4 adds nothing to [category] and one entry to
    [country]. *)
Theorem groups_contribute_independently env backend param files (rows : list Row) :
  drive_files_list backend (driveQuery (photoFolder param)) = Returned files →
  sheets_values_get backend (spreadsheetId param) (sheetRange param) = Returned (Some rows) →
  let photos := buildFileMap files in
  let data := drop 2 rows in
  (∃ md, (getMasterDataSource env backend param).2 = Returned md ∧
     category md = omap (categoryEntry env photos) data ∧
     country md = omap (groupEntry env photos 4 5) data ∧
     role md = omap (groupEntry env photos 7 8) data ∧
     birthplace md = omap (groupEntry env photos 10 11) data ∧
     yearofbirth md = omap (groupEntry env photos 13 14) data ∧
     monthofbirth md = omap (groupEntry env photos 16 17) data ∧
     project md = omap (groupEntry env photos 19 20) data ∧
     club md = omap (groupEntry env photos 22 23) data ∧
     gender md = omap (groupEntry env photos 25 26) data ∧
     joiningyear md = omap (groupEntry env photos 28 29) data ∧
     office md = omap (groupEntry env photos 31 32) data) ∧
  (∀ row, is_Some (categoryEntry env photos row) ↔ truthy_opt (row !! 0) = true) ∧
  (∀ row labelCol photoCol,
     is_Some (groupEntry env photos labelCol photoCol row)
     ↔ truthy_opt (row !! labelCol) = true) ∧
  (∀ result row,
     truthy_opt (row !! 0) = false → truthy_opt (row !! 4) = true →
     category (groupRow env photos result row) = category result ∧
     ∃ entry, country (groupRow env photos result row) = country result ++ [entry]).
Proof.
  intros Hd Hs photos data. split_and!.
  - rewrite (getMasterDataSource_returns env backend param files _ Hd Hs).
    fold photos.
    destruct (Nat.leb_spec (length rows) 1) as [Hshort|Hlong].
    + assert (data = []) as -> by (apply drop_ge; lia).
      exists emptyMasterData. by split_and!.
    + eexists. split; [done|]. fold data. rewrite foldl_groupRow. by split_and!.
  - intros row. unfold categoryEntry.
    destruct (truthy_opt (row !! 0)); split; (done || by intros [? ?] || by eexists).
  - intros row labelCol photoCol. unfold groupEntry.
    destruct (truthy_opt (row !! labelCol)); split; (done || by intros [? ?] || by eexists).
  - intros result row H0 H4. simpl.
    rewrite push_if_category, push_if_group. unfold categoryEntry, groupEntry.
    rewrite H0, H4. simpl. split; [by rewrite app_nil_r|by eexists].
Qed.

Lemma groups_contribute_independently_witness :
  let rows := [["category"]; ["key"; "title"; "photo"];
               [""; ""; ""; ""; "Vietnam"; "p.png"]] in
  ∃ md, (getMasterDataSource env0 (backend0 (Some rows)) param0).2 = Returned md ∧
        category md = [] ∧
        country md = [{| title := "Vietnam"; photo := "https://cdn.example/id1" |}].
Proof.
  intros rows.
  destruct (groups_contribute_independently env0 (backend0 (Some rows)) param0 files0 rows)
    as ((md & Hmd & Hcategory & Hcountry & _) & _); [reflexivity|reflexivity|].
  exists md. split_and!; [exact Hmd|exact Hcategory|exact Hcountry].
Defined.

(** ** Filter utilities *)

(** The condition of [filterEmployee] is the specification's match on every
    record whose [projects] and [club] are sequences. *)
Lemma filterEmployee_condition fieldName filterValue (e : Employee) :
  sequenceFields e →
  (if bool_decide (fieldName = "club") || bool_decide (fieldName = "projects")
   then includes_opt (field e fieldName) filterValue
   else strict_eq_str (field e fieldName) filterValue)
  = matchesFilter fieldName filterValue e.
Proof.
  intros Hseq. unfold matchesFilter, field.
  rewrite (orb_comm (bool_decide (fieldName = "projects"))).
  destruct (bool_decide (fieldName = "club") || bool_decide (fieldName = "projects")) eqn:Hk.
  - destruct (e !! fieldName) as [[| s | l]|] eqn:He; simpl; try done.
    exfalso. apply (Hseq fieldName s); [|done].
    apply orb_true_iff in Hk as [Hk|Hk]; apply bool_decide_eq_true in Hk; auto.
  - destruct (e !! fieldName) as [[| s | l]|] eqn:He; simpl;
      first [ done
            | by symmetry; apply bool_decide_eq_false
            | apply bool_decide_ext; naive_solver ].
Qed.

(** The records the row mapper builds have sequences in [projects] and
    [club]. *)
Lemma mapRows_sequenceFields env photos headers dataRows e :
  e ∈ mapRows env photos headers dataRows → sequenceFields e.
Proof.
  intros (row & -> & _)%list_elem_of_fmap k s Hk.
  by apply toEmployee_multi.
Qed.

(** C7. On records whose [projects] and [club] are sequences, as the
    [Employee] type declares, [filterEmployee] returns exactly the records
    that satisfy the match, in their order: for [projects] and [club] those
    whose sequence contains the value as an element, for every other field
    those whose scalar field is the very same string. *)
Theorem filterEmployee_selects fieldName filterValue (employees : list Employee) :
  (∀ e, e ∈ employees → sequenceFields e) →
  filterEmployee fieldName filterValue employees
  = List.filter (matchesFilter fieldName filterValue) employees
  ∧ ∀ e, e ∈ filterEmployee fieldName filterValue employees
         ↔ e ∈ employees ∧ matchesFilter fieldName filterValue e = true.
Proof.
  intros Hseq.
  assert (filterEmployee fieldName filterValue employees
          = List.filter (matchesFilter fieldName filterValue) employees) as Heq.
  { unfold filterEmployee.
    destruct (bool_decide (fieldName = "club") || bool_decide (fieldName = "projects")) eqn:Hk;
      apply List.filter_ext_in; intros e He%list_elem_of_In;
      rewrite <-(filterEmployee_condition fieldName filterValue e (Hseq e He)), Hk; done. }
  split; [done|]. intros e.
  rewrite Heq, list_elem_of_In, List.filter_In, <-list_elem_of_In. done.
Qed.

Lemma filterEmployee_selects_witness :
  let ann : Employee := <["club" := Arr ["Soccer"; "Chess"]]> (<["gender" := Str "F"]> ∅) in
  let bob : Employee := <["club" := Arr ["Chess"]]> (<["gender" := Str "M"]> ∅) in
  filterEmployee "club" "Soccer" [ann; bob] = [ann] ∧
  filterEmployee "gender" "M" [ann; bob] = [bob].
Proof.
  intros ann bob.
  assert (∀ e, e ∈ [ann; bob] → sequenceFields e) as Hseq.
  { intros e He k s Hk.
    apply elem_of_cons in He as [->|He]; [|apply list_elem_of_singleton in He as ->];
      destruct Hk as [-> | ->]; by vm_compute. }
  split.
  - by rewrite (proj1 (filterEmployee_selects "club" "Soccer" [ann; bob] Hseq)).
  - by rewrite (proj1 (filterEmployee_selects "gender" "M" [ann; bob] Hseq)).
Defined.

(** ** Secret check of the two endpoints *)

Section Secret.

Context (env : Env) (backend : Backend) (param : ApiParam).

Lemma validateSecretKey_mismatch req :
  strict_eq_env (secretApi req) (API_SECRET_KEY env) = false →
  validateSecretKey env req = (unauthorized, Returned false).
Proof. unfold validateSecretKey. by intros ->. Qed.

Lemma validateSecretKey_match req :
  strict_eq_env (secretApi req) (API_SECRET_KEY env) = true →
  validateSecretKey env req = ([], Returned true).
Proof. unfold validateSecretKey. by intros ->. Qed.

Lemma employeeAPI_mismatch req :
  strict_eq_env (secretApi req) (API_SECRET_KEY env) = false →
  employeeAPI env backend req param = (unauthorized, Returned tt).
Proof. intros Hne. unfold employeeAPI. by rewrite validateSecretKey_mismatch. Qed.

Lemma masterDataAPI_mismatch req :
  strict_eq_env (secretApi req) (API_SECRET_KEY env) = false →
  masterDataAPI env backend req param = (unauthorized, Returned tt).
Proof. intros Hne. unfold masterDataAPI. by rewrite validateSecretKey_mismatch. Qed.

(** A header that is neither [undefined] nor [null] is the supplied secret. *)
Lemma secretApi_header req v :
  req_headers req !! "x-secret-key" = Some v → v ≠ Null → secretApi req = Some v.
Proof. unfold secretApi. intros -> Hv. by destruct v. Qed.

(** Only without such a header is the query parameter read. *)
Lemma secretApi_query req :
  req_headers req !! "x-secret-key" = None ∨ req_headers req !! "x-secret-key" = Some Null →
  secretApi req = req_query req !! "x-secret-key".
Proof. unfold secretApi. by intros [-> | ->]. Qed.

End Secret.

(** C8. When the supplied secret is not strictly equal to the configured
    one, both [employeeAPI] and [masterDataAPI] do exactly this and nothing
    else: set status 401 and send
    [{error_code: "unauthorized", error_message: "Invalid secret key"}];
    neither the Drive listing nor the Sheets read is issued. *)
Theorem secret_mismatch_unauthorized env backend req param :
  strict_eq_env (secretApi req) (API_SECRET_KEY env) = false →
  employeeAPI env backend req param
  = ([ResStatus 401; ResJson (ErrorPayload "unauthorized" "Invalid secret key")],
     Returned tt) ∧
  masterDataAPI env backend req param
  = ([ResStatus 401; ResJson (ErrorPayload "unauthorized" "Invalid secret key")],
     Returned tt) ∧
  (∀ ev, ev ∈ (employeeAPI env backend req param).1 ++ (masterDataAPI env backend req param).1 →
         dataSourceCall ev = false).
Proof.
  intros Hne.
  rewrite (employeeAPI_mismatch env backend param req Hne).
  rewrite (masterDataAPI_mismatch env backend param req Hne).
  split_and!; [done|done|]. simpl. intros ev Hev.
  repeat (apply elem_of_cons in Hev as [->|Hev]; [done|]).
  by apply elem_of_nil in Hev.
Qed.

Lemma secret_mismatch_unauthorized_witness :
  let req := {| req_headers := ∅; req_query := {["x-secret-key" := StrV "guess"]} |} in
  employeeAPI env0 (backend0 None) req param0 = (unauthorized, Returned tt) ∧
  masterDataAPI env0 (backend0 None) req param0 = (unauthorized, Returned tt).
Proof.
  intros req.
  destruct (secret_mismatch_unauthorized env0 (backend0 None) req param0)
    as (He & Hm & _); [reflexivity|].
  by split.
Defined.

(** C10. A request whose [x-secret-key] header is present (neither
    [undefined] nor [null]) and differs from the configured secret is
    rejected with the 401 answer by the check and by both endpoints,
    whatever its query parameter holds, the configured secret included; the
    query parameter is what is compared only for a request without such a
    header. *)
Theorem header_secret_takes_precedence env backend req param v :
  req_headers req !! "x-secret-key" = Some v →
  v ≠ Null →
  strict_eq_env (Some v) (API_SECRET_KEY env) = false →
  secretApi req = Some v ∧
  validateSecretKey env req = (unauthorized, Returned false) ∧
  employeeAPI env backend req param = (unauthorized, Returned tt) ∧
  masterDataAPI env backend req param = (unauthorized, Returned tt) ∧
  (∀ req' : Request,
     req_headers req' !! "x-secret-key" = None ∨ req_headers req' !! "x-secret-key" = Some Null →
     secretApi req' = req_query req' !! "x-secret-key").
Proof.
  intros Hh Hv Hne.
  pose proof (secretApi_header req v Hh Hv) as Hsecret.
  rewrite <-Hsecret in Hne. split_and!.
  - done.
  - by apply validateSecretKey_mismatch.
  - by apply employeeAPI_mismatch.
  - by apply masterDataAPI_mismatch.
  - apply secretApi_query.
Qed.

Lemma header_secret_takes_precedence_witness :
  let req := {| req_headers := {["x-secret-key" := StrV "wrong"]};
                req_query := {["x-secret-key" := StrV "s3cret"]} |} in
  req_query req !! "x-secret-key" = Some (StrV "s3cret") ∧
  API_SECRET_KEY env0 = Some "s3cret" ∧
  validateSecretKey env0 req = (unauthorized, Returned false) ∧
  employeeAPI env0 (backend0 None) req param0 = (unauthorized, Returned tt).
Proof.
  intros req.
  destruct (header_secret_takes_precedence env0 (backend0 None) req param0 (StrV "wrong"))
    as (_ & Hv & He & _); [reflexivity|discriminate|reflexivity|].
  split_and!; [reflexivity|reflexivity|exact Hv|exact He].
Defined.

(** ** Client fetch facade *)

Section Facade.

Context {J : Type} (error_message : J → outcome string).

(** A response that is not [ok] always makes [handleResponse] throw. *)
Lemma handleResponse_not_ok (response : Response J) :
  ok response = false → ∃ e, (handleResponse J error_message response).2 = Thrown e.
Proof.
  intros Hok. unfold handleResponse. rewrite Hok. simpl.
  unfold mbind, M_bind, lift, throw. simpl.
  destruct (json response) as [errorData|e]; simpl; [|by eexists].
  repeat case_bool_decide; simpl; destruct (error_message errorData); simpl; by eexists.
Qed.

Lemma handleResponse_ok (response : Response J) :
  ok response = true → handleResponse J error_message response = ([], json response).
Proof. intros Hok. unfold handleResponse. by rewrite Hok. Qed.

(** Whatever is thrown inside the [try] block, the [catch] returns [null]. *)
Lemma tryCatch_null {E A} (m : M E (option A)) (handler : exn → M E (option A)) :
  (∀ e, (handler e).2 = Returned None) →
  (tryCatch m handler).2 = match m.2 with
                           | Returned data => Returned data
                           | Thrown _ => Returned None
                           end.
Proof. intros Hh. unfold tryCatch. destruct m as [t [data|e]]; simpl; [done|apply Hh]. Qed.

Lemma fetchApis_result apiKey firstWins (r1 r2 : outcome (Response J)) :
  (fetchApis J error_message apiKey firstWins r1 r2).2 =
  match r1, r2 with
  | Returned resp1, Returned resp2 =>
      if ok resp1 && ok resp2 then
        match json resp1, json resp2 with
        | Returned employees, Returned masterData => Returned (Some (employees, masterData))
        | _, _ => Returned None
        end
      else Returned None
  | _, _ => Returned None
  end.
Proof.
  unfold fetchApis. rewrite tryCatch_null by done.
  destruct r1 as [resp1|e1], r2 as [resp2|e2]; try done.
  unfold mbind, M_bind, emit, lift. cbn [fst snd promiseAll].
  destruct (ok resp1) eqn:Hok1.
  - rewrite (handleResponse_ok _ Hok1). cbn [fst snd andb].
    destruct (json resp1) as [employees|e1]; [|by destruct (ok resp2)].
    destruct (ok resp2) eqn:Hok2.
    + rewrite (handleResponse_ok _ Hok2). cbn [fst snd].
      by destruct (json resp2).
    + by destruct (handleResponse_not_ok _ Hok2) as [e ->].
  - by destruct (handleResponse_not_ok _ Hok1) as [e ->].
Qed.

End Facade.

(** C9. [fetchApis] never raises to its caller: it always returns. If either
    fetch rejects or either response is not [ok], it returns [null]. It
    returns a pair exactly when both fetches resolve to [ok] responses whose
    bodies parse, and the pair is then the two parsed bodies. *)
Theorem fetchApis_all_or_nothing {J} (error_message : J → outcome string) apiKey firstWins
    (employeesFetch masterDataFetch : outcome (Response J)) :
  let result := fetchApis J error_message apiKey firstWins employeesFetch masterDataFetch in
  (∃ data, result.2 = Returned data) ∧
  (unsuccessful employeesFetch = true ∨ unsuccessful masterDataFetch = true →
     result.2 = Returned None) ∧
  (∀ employees masterData,
     result.2 = Returned (Some (employees, masterData)) ↔
     ∃ resp1 resp2,
       employeesFetch = Returned resp1 ∧ masterDataFetch = Returned resp2 ∧
       ok resp1 = true ∧ ok resp2 = true ∧
       json resp1 = Returned employees ∧ json resp2 = Returned masterData).
Proof.
  intros result. unfold result. rewrite fetchApis_result. split_and!.
  - destruct employeesFetch as [resp1|e1], masterDataFetch as [resp2|e2]; try by eexists.
    destruct (ok resp1 && ok resp2), (json resp1), (json resp2); by eexists.
  - intros Hfail.
    destruct employeesFetch as [resp1|e1], masterDataFetch as [resp2|e2]; try done.
    simpl in Hfail.
    destruct Hfail as [Hok|Hok]; apply negb_true_iff in Hok; rewrite Hok;
      by rewrite ?andb_false_r.
  - intros employees masterData. split.
    + destruct employeesFetch as [resp1|e1], masterDataFetch as [resp2|e2]; try done.
      destruct (ok resp1) eqn:Hok1, (ok resp2) eqn:Hok2; try done. simpl.
      destruct (json resp1) eqn:Hj1, (json resp2) eqn:Hj2; try done.
      intros [= -> ->]. by eexists _, _.
    + intros (resp1 & resp2 & -> & -> & -> & -> & -> & ->). done.
Qed.

Lemma fetchApis_all_or_nothing_witness :
  let good := Returned {| ok := true; status := 200; json := Returned "[]" |} in
  let denied := Returned {| ok := false; status := 401; json := Returned "{}" |} in
  (fetchApis string Returned "s3cret" true good denied).2 = Returned None ∧
  (fetchApis string Returned "s3cret" true (Thrown "offline") good).2 = Returned None ∧
  (fetchApis string Returned "s3cret" true good good).2 = Returned (Some ("[]", "[]")).
Proof.
  intros good denied.
  destruct (fetchApis_all_or_nothing Returned "s3cret" true good denied) as (_ & Hdenied & _).
  destruct (fetchApis_all_or_nothing Returned "s3cret" true (Thrown "offline") good)
    as (_ & Hoffline & _).
  destruct (fetchApis_all_or_nothing Returned "s3cret" true good good) as (_ & _ & Hboth).
  split_and!.
  - apply Hdenied. by right.
  - apply Hoffline. by left.
  - apply Hboth. by eexists _, _.
Defined.

(** ** End-to-end checks *)

(** A matching secret lets the request through: the Drive listing, the
    Sheets read, then status 200 with the records. *)
Example employeeAPI_authorized :
  let req := {| req_headers := {["x-secret-key" := StrV "s3cret"]}; req_query := ∅ |} in
  let rows := Some [["name"; "photo"; "dob"]; ["Ann"; "p.png"; "5/20/1990"]] in
  employeeAPI env0 (backend0 rows) req param0
  = ([DriveFilesList "'folder' in parents and trashed=false" "files(id, name)";
      SheetsValuesGet "sheet" "A1:AG";
      ResStatus 200;
      ResJson (EmployeesPayload
                 [toEmployee env0 (buildFileMap files0) ["name"; "photo"; "dob"]
                    ["Ann"; "p.png"; "5/20/1990"]])],
     Returned tt).
Proof. reflexivity. Qed.

Example employee_record :
  toEmployee env0 (buildFileMap files0) ["name"; "photo"; "dob"] ["Ann"; "p.png"; "5/20/1990"]
  = <["dob" := Str "5/20/1990"]>
      (<["yearofbirth" := Str "1990"]>
         (<["monthofbirth" := Str "5"]>
            (<["photo" := Str "https://cdn.example/id1"]> (<["name" := Str "Ann"]> ∅)))).
Proof. reflexivity. Qed.

(** A failing Sheets read is logged twice and answered with status 500. *)
Example employeeAPI_upstream_failure :
  let req := {| req_headers := ∅; req_query := {["x-secret-key" := StrV "s3cret"]} |} in
  let backend := {| drive_files_list := λ _, Returned None;
                    sheets_values_get := λ _ _, Thrown "quota" |} in
  employeeAPI env0 backend req param0
  = ([DriveFilesList "'folder' in parents and trashed=false" "files(id, name)";
      ConsoleLog "No files found.";
      SheetsValuesGet "sheet" "A1:AG";
      ConsoleError ["Error retrieving employee data:"; "quota"];
      ConsoleError ["quota"];
      ResStatus 500;
      ResJson (ErrorPayload "00001" "Internal Server Error")],
     Returned tt).
Proof. reflexivity. Qed.

(** A 401 answer on the client side is logged and turned into [null]. *)
Example fetchApis_unauthorized :
  let denied := Returned {| ok := false; status := 401; json := Returned "Invalid secret key" |} in
  fetchApis string Returned "guess" true denied denied
  = ([Fetch "/api/employee" "GET"
        [("Content-Type", "application/json"); ("x-secret-key", "guess")];
      Fetch "/api/master-data" "GET"
        [("Content-Type", "application/json"); ("x-secret-key", "guess")];
      ClientConsoleError ["An error occurred:"; "Unauthorized: Invalid secret key"]],
     Returned None).
Proof. reflexivity. Qed.

(** * Further properties of the pipeline *)

(** ** Row mapper: field set, pass-through and dates *)

Section RowMapperMore.

Context (env : Env) (photos : gmap string string).

Ltac by_header :=
  unfold employeeStep, setProperty, writes in *;
  repeat (case_bool_decide; simplify_eq/=).

Lemma employeeStep_dom row (employee : Employee) header index :
  dom (employeeStep env photos row employee header index)
  = dom employee ∪ list_to_set (writes header).
Proof. by_header; rewrite ?dom_insert_L; set_solver. Qed.

Lemma reduce_dom row headers i (employee : Employee) :
  dom (reduce_from (employeeStep env photos row) i headers employee)
  = dom employee ∪ fieldSet headers.
Proof.
  unfold fieldSet. revert i employee.
  induction headers as [|h hs IH]; intros i employee; simpl.
  - set_solver.
  - rewrite IH, employeeStep_dom, list_to_set_app_L. set_solver.
Qed.

Lemma toEmployee_at row (H : list string) i h k :
  H !! i = Some h →
  (∀ j h', i < j → H !! j = Some h' → k ∉ writes h') →
  toEmployee env photos H row !! k
  = employeeStep env photos row (toEmployee env photos (take i H) row) h i !! k.
Proof.
  intros Hi Hlater.
  destruct (last_write_split H i h k Hi Hlater) as (H1 & H2 & HH & Hlen & Hfree).
  rewrite HH, toEmployee_last_write by done.
  by rewrite take_app_length', Hlen.
Qed.

End RowMapperMore.

(** X1. The field set of a record depends on the header row alone: it is
    the set of headers other than [__proto__], together with [monthofbirth]
    and [yearofbirth] when [dob] is a header and [joiningyear] when
    [date_joined] is one. Hence all records of one sheet have the same
    fields, whatever their cells, and none has a field [__proto__]. *)
Theorem mapRows_same_fields env photos (H : list string) (R : list Row) :
  (∀ row, dom (toEmployee env photos H row) = fieldSet H) ∧
  (∀ e1 e2, e1 ∈ mapRows env photos H R → e2 ∈ mapRows env photos H R → dom e1 = dom e2) ∧
  (∀ k, k ∈ fieldSet H ↔
        (k ∈ H ∧ k ≠ "__proto__")
        ∨ ("dob" ∈ H ∧ (k = "monthofbirth" ∨ k = "yearofbirth"))
        ∨ ("date_joined" ∈ H ∧ k = "joiningyear")).
Proof.
  assert (∀ row, dom (toEmployee env photos H row) = fieldSet H) as Hdom.
  { intros row. unfold toEmployee, reduce. rewrite reduce_dom. set_solver. }
  split_and!; [done| |].
  - intros e1 e2 (r1 & -> & _)%list_elem_of_fmap (r2 & -> & _)%list_elem_of_fmap.
    by rewrite !Hdom.
  - intros k. unfold fieldSet. rewrite elem_of_list_to_set, list_elem_of_bind. split.
    + intros (h & Hk & Hh). unfold writes in Hk.
      repeat case_bool_decide; simplify_eq.
      * apply elem_of_cons in Hk as [->|Hk]; [right; left; by auto|].
        apply elem_of_cons in Hk as [->|Hk]; [right; left; by auto|].
        apply list_elem_of_singleton in Hk as ->. by left.
      * apply elem_of_cons in Hk as [->|Hk]; [right; right; by auto|].
        apply list_elem_of_singleton in Hk as ->. by left.
      * by apply elem_of_nil in Hk.
      * apply list_elem_of_singleton in Hk as ->. by left.
    + intros [[Hk Hproto]|[[Hd Hk]|[Hd ->]]].
      * exists k. split; [|done]. unfold writes.
        repeat case_bool_decide; simplify_eq;
          first [apply list_elem_of_singleton; done | by do 2 right; left | by right; left].
      * exists "dob". split; [|done]. destruct Hk as [-> | ->]; [by left|right; by left].
      * exists "date_joined". split; [|done]. by left.
Qed.

Lemma mapRows_same_fields_witness :
  let R := [["Ann"; "5/20/1990"]; ["Bob"]] in
  dom (toEmployee env0 ∅ ["name"; "dob"] ["Ann"; "5/20/1990"])
  = dom (toEmployee env0 ∅ ["name"; "dob"] ["Bob"]).
Proof.
  intros R.
  destruct (mapRows_same_fields env0 ∅ ["name"; "dob"] R) as (_ & Hsame & _).
  apply Hsame; unfold R, mapRows; rewrite !fmap_cons.
  - by left.
  - right. by left.
Defined.

(** X2. A header other than [photo], [projects], [club] and [__proto__]
    stores the raw cell of its last column, the empty string when the cell
    is missing, provided no later header writes the same field. *)
Theorem scalar_header_passthrough env photos (H : list string) (row : Row) h i :
  H !! i = Some h →
  h ∉ ["photo"; "projects"; "club"; "__proto__"] →
  (∀ j h', i < j → H !! j = Some h' → h ∉ writes h') →
  toEmployee env photos H row !! h = Some (Str (default "" (row !! i))).
Proof.
  intros Hi Hh Hlater. rewrite (toEmployee_at env photos row H i h h Hi Hlater).
  assert (or_empty (row !! i) = default "" (row !! i)) as <-
    by (by destruct (row !! i) as [[|]|]).
  apply not_elem_of_cons in Hh as [Hphoto Hh].
  apply not_elem_of_cons in Hh as [Hprojects Hh].
  apply not_elem_of_cons in Hh as [Hclub Hh].
  apply not_elem_of_cons in Hh as [Hproto _].
  unfold employeeStep, setProperty.
  rewrite (bool_decide_eq_false_2 (h = "photo")), (bool_decide_eq_false_2 (h = "projects")),
    (bool_decide_eq_false_2 (h = "club")), (bool_decide_eq_false_2 (h = "__proto__")) by done.
  simpl. repeat case_bool_decide; by rewrite lookup_insert_eq.
Qed.

Lemma scalar_header_passthrough_witness :
  toEmployee env0 ∅ ["name"; "dob"; "name"] ["Ann"; "5/20/1990"; "Bea"] !! "name"
  = Some (Str "Bea") ∧
  toEmployee env0 ∅ ["name"; "dob"; "name"] ["Ann"; "5/20/1990"; "Bea"] !! "dob"
  = Some (Str "5/20/1990").
Proof.
  split.
  - apply (scalar_header_passthrough env0 ∅ ["name"; "dob"; "name"]
             ["Ann"; "5/20/1990"; "Bea"] "name" 2); [reflexivity|set_solver|].
    intros [|[|[|j]]] h' Hlt Hj; simplify_eq/=; lia.
  - apply (scalar_header_passthrough env0 ∅ ["name"; "dob"; "name"]
             ["Ann"; "5/20/1990"; "Bea"] "dob" 1); [reflexivity|set_solver|].
    intros [|[|[|j]]] h' Hlt Hj; simplify_eq/=; [lia|lia|set_solver].
Defined.

(** ** Splitting and trimming *)

Section SplitTrim.

Lemma or_empty_Some s : or_empty (Some s) = s.
Proof. by destruct s. Qed.

Lemma split_after sep a b :
  lacks sep a = true → split sep (a +:+ String sep b) = a :: split sep b.
Proof.
  induction a as [|c a IH]; simpl.
  - intros _. change (split sep (String sep b) = "" :: split sep b).
    simpl. by rewrite Ascii.eqb_refl.
  - intros [Hc Ha]%andb_true_iff. apply negb_true_iff in Hc.
    change (split sep (String c (a +:+ String sep b)) = String c a :: split sep b).
    simpl. by rewrite Hc, (IH Ha).
Qed.

Lemma split_prefix sep a b :
  lacks sep a = true →
  split sep (a +:+ b) = match split sep b with
                        | piece :: pieces => (a +:+ piece) :: pieces
                        | [] => []
                        end.
Proof.
  induction a as [|c a IH]; simpl.
  - intros _. change (split sep b = match split sep b with
                                     | piece :: pieces => piece :: pieces
                                     | [] => []
                                     end).
    by destruct (split sep b).
  - intros [Hc Ha]%andb_true_iff. apply negb_true_iff in Hc.
    change (split sep (String c (a +:+ b)) = match split sep b with
                                              | piece :: pieces => String c (a +:+ piece) :: pieces
                                              | [] => []
                                              end).
    simpl. rewrite Hc, (IH Ha).
    destruct (split_nonempty sep b) as (p & ps & ->). done.
Qed.

Lemma split_pieces_lack sep s : Forall (λ piece, lacks sep piece = true) (split sep s).
Proof.
  induction s as [|c s IH]; simpl; [by repeat constructor|].
  destruct (Ascii.eqb c sep) eqn:Hc; [by constructor|].
  destruct (split sep s) as [|p ps]; [by repeat constructor; simpl; rewrite Hc|].
  apply Forall_cons in IH as [Hp Hps]. constructor; [|done]. simpl. by rewrite Hc, Hp.
Qed.

Lemma lacks_app sep a b : lacks sep (a +:+ b) = lacks sep a && lacks sep b.
Proof.
  induction a as [|c a IH]; [done|].
  change (lacks sep (String c (a +:+ b)) = lacks sep (String c a) && lacks sep b).
  simpl. by rewrite IH, andb_assoc.
Qed.

Lemma trim_lacks sep s : lacks sep s = true → lacks sep (trim s) = true.
Proof.
  destruct (trim_spec s) as (l & r & Hs & _). intros Hl. rewrite Hs in Hl.
  rewrite !lacks_app in Hl. by apply andb_true_iff in Hl as [_ [? _]%andb_true_iff].
Qed.

Lemma trimEnd_fixed s : trailingSpace s = false → trimEnd s = s.
Proof.
  induction s as [|c s IH]; [done|]. simpl.
  destruct s as [|c' s']; [by intros ->|].
  intros Ht. by rewrite (IH Ht).
Qed.

Lemma trim_fixed s : leadingSpace s = false → trailingSpace s = false → trim s = s.
Proof.
  intros Hl Ht. unfold trim.
  assert (trimStart s = s) as -> by (destruct s; simpl in *; by rewrite ?Hl).
  by apply trimEnd_fixed.
Qed.

Lemma trimStart_blank pad s : blank pad = true → trimStart (pad +:+ s) = trimStart s.
Proof.
  induction pad as [|c pad IH]; [done|].
  intros [Hc Hp]%andb_true_iff.
  change (trimStart (String c (pad +:+ s)) = trimStart s). simpl. by rewrite Hc, IH.
Qed.

Lemma blank_lacks_comma pad : blank pad = true → lacks "," pad = true.
Proof.
  induction pad as [|c pad IH]; [done|]. simpl.
  intros [Hc Hp]%andb_true_iff. rewrite (IH Hp), andb_true_r.
  destruct (Ascii.eqb_spec c ","); [by subst|done].
Qed.

Lemma clean_spec piece :
  clean piece = true ↔
  lacks "," piece = true ∧ leadingSpace piece = false ∧ trailingSpace piece = false.
Proof.
  unfold clean. rewrite !andb_true_iff, !negb_true_iff. naive_solver.
Qed.

(** The pieces of a cell, after trimming, are clean. *)
Lemma trimmed_pieces_clean cell :
  Forall (λ piece, clean piece = true) (trim <$> split "," cell).
Proof.
  apply Forall_fmap. eapply Forall_impl; [apply (split_pieces_lack "," cell)|].
  intros piece Hp. simpl. apply clean_spec.
  destruct (trim_spec piece) as (l & r & _ & _ & _ & Hl & Ht).
  split_and!; [by apply trim_lacks|done|done].
Qed.

(** Splitting a join of comma-free pieces gives the pieces back, each after
    the first still carrying the blank padding of the separator. *)
Lemma split_concat pad piece pieces :
  lacks "," pad = true →
  Forall (λ p, lacks "," p = true) (piece :: pieces) →
  split "," (String.concat ("," +:+ pad) (piece :: pieces))
  = piece :: ((λ p, pad +:+ p) <$> pieces).
Proof.
  intros Hpad. revert piece.
  induction pieces as [|q qs IH]; intros piece [Hp Hqs]%Forall_cons.
  - simpl. by apply split_lacks.
  - change (split "," (piece +:+ String "," (pad +:+ String.concat ("," +:+ pad) (q :: qs)))
            = piece :: (pad +:+ q) :: ((λ p, pad +:+ p) <$> qs)).
    rewrite (split_after _ _ _ Hp), (split_prefix _ _ _ Hpad), (IH q Hqs). done.
Qed.

Lemma trim_padded pad pieces :
  blank pad = true →
  Forall (λ p, clean p = true) pieces →
  trim <$> ((λ p, pad +:+ p) <$> pieces) = pieces.
Proof.
  intros Hpad. induction 1 as [|p ps Hp _ IH]; [done|].
  rewrite !fmap_cons, IH. f_equal.
  apply clean_spec in Hp as (_ & Hl & Ht).
  unfold trim. rewrite (trimStart_blank _ _ Hpad).
  by apply (trim_fixed p).
Qed.

End SplitTrim.

Lemma split_three sep a b c :
  lacks sep a = true → lacks sep b = true → lacks sep c = true →
  split sep (a +:+ String sep (b +:+ String sep c)) = [a; b; c].
Proof.
  intros Ha Hb Hc. by rewrite (split_after _ _ _ Ha), (split_after _ _ _ Hb), (split_lacks _ _ Hc).
Qed.

(** X3. A [dob] cell of the form [m/d/y], none of [m], [d], [y] containing
    a [/], is stored unchanged under [dob], with [m] as [monthofbirth] and
    [y] as [yearofbirth] (for the last [dob] column, no later header writing
    these fields). *)
Theorem well_formed_dob env photos (H : list string) (row : Row) i m d y :
  H !! i = Some "dob" →
  (∀ j h, i < j → H !! j = Some h → h ∉ ["dob"; "monthofbirth"; "yearofbirth"]) →
  row !! i = Some (m +:+ "/" +:+ d +:+ "/" +:+ y) →
  lacks "/" m = true → lacks "/" d = true → lacks "/" y = true →
  let e := toEmployee env photos H row in
  e !! "dob" = Some (Str (m +:+ "/" +:+ d +:+ "/" +:+ y)) ∧
  e !! "monthofbirth" = Some (Str m) ∧
  e !! "yearofbirth" = Some (Str y).
Proof.
  intros Hi Hlater Hcell Hm Hd Hy e.
  assert (∀ k, k ∈ ["dob"; "monthofbirth"; "yearofbirth"] →
            e !! k = employeeStep env photos row (toEmployee env photos (take i H) row)
                       "dob" i !! k) as Hlast.
  { intros k Hk. apply toEmployee_at; [done|].
    intros j h Hij Hj. specialize (Hlater j h Hij Hj).
    unfold writes. repeat case_bool_decide; set_solver. }
  rewrite !Hlast by set_solver. unfold employeeStep. simpl.
  rewrite Hcell, or_empty_Some.
  change (m +:+ "/" +:+ d +:+ "/" +:+ y) with (m +:+ String "/" (d +:+ String "/" y)).
  rewrite (split_three "/" m d y Hm Hd Hy). simpl. by simplify_map_eq.
Qed.

Lemma well_formed_dob_witness :
  let e := toEmployee env0 ∅ ["name"; "dob"] ["Ann"; "12/01/1987"] in
  e !! "dob" = Some (Str "12/01/1987") ∧
  e !! "monthofbirth" = Some (Str "12") ∧
  e !! "yearofbirth" = Some (Str "1987").
Proof.
  apply (well_formed_dob env0 ∅ ["name"; "dob"] ["Ann"; "12/01/1987"] 1 "12" "01" "1987");
    try reflexivity.
  intros [|[|j]] h Hlt Hj; simplify_eq/=; lia.
Defined.

(** X4. A [date_joined] cell of the form [m/d/y], none of the three parts
    containing a [/], is stored unchanged under [date_joined], with [y] as
    [joiningyear] (for the last [date_joined] column, no later header
    writing these fields). *)
Theorem well_formed_date_joined env photos (H : list string) (row : Row) i m d y :
  H !! i = Some "date_joined" →
  (∀ j h, i < j → H !! j = Some h → h ∉ ["date_joined"; "joiningyear"]) →
  row !! i = Some (m +:+ "/" +:+ d +:+ "/" +:+ y) →
  lacks "/" m = true → lacks "/" d = true → lacks "/" y = true →
  let e := toEmployee env photos H row in
  e !! "date_joined" = Some (Str (m +:+ "/" +:+ d +:+ "/" +:+ y)) ∧
  e !! "joiningyear" = Some (Str y).
Proof.
  intros Hi Hlater Hcell Hm Hd Hy e.
  assert (∀ k, k ∈ ["date_joined"; "joiningyear"] →
            e !! k = employeeStep env photos row (toEmployee env photos (take i H) row)
                       "date_joined" i !! k) as Hlast.
  { intros k Hk. apply toEmployee_at; [done|].
    intros j h Hij Hj. specialize (Hlater j h Hij Hj).
    unfold writes. repeat case_bool_decide; set_solver. }
  rewrite !Hlast by set_solver. unfold employeeStep. simpl.
  rewrite Hcell, or_empty_Some.
  change (m +:+ "/" +:+ d +:+ "/" +:+ y) with (m +:+ String "/" (d +:+ String "/" y)).
  rewrite (split_three "/" m d y Hm Hd Hy). simpl. by simplify_map_eq.
Qed.

Lemma well_formed_date_joined_witness :
  let e := toEmployee env0 ∅ ["date_joined"; "name"] ["3/15/2021"; "Ann"] in
  e !! "date_joined" = Some (Str "3/15/2021") ∧
  e !! "joiningyear" = Some (Str "2021").
Proof.
  apply (well_formed_date_joined env0 ∅ ["date_joined"; "name"] ["3/15/2021"; "Ann"]
           0 "3" "15" "2021"); try reflexivity.
  intros [|[|j]] h Hlt Hj; simplify_eq/=; [lia|set_solver].
Defined.

(** X5. Round trip of a multi-valued cell: when a [projects] or [club] cell
    is a non-empty list of clean pieces (no comma, no whitespace at either
    end) joined by a comma followed by any blank padding, the field is that
    list of pieces. *)
Theorem multi_valued_round_trip env photos (H : list string) (row : Row) h i pad pieces :
  h = "projects" ∨ h = "club" →
  H !! i = Some h →
  (∀ j h', i < j → H !! j = Some h' → h' ≠ h) →
  pieces ≠ [] →
  Forall (λ p, clean p = true) pieces →
  blank pad = true →
  row !! i = Some (String.concat ("," +:+ pad) pieces) →
  toEmployee env photos H row !! h = Some (Arr pieces).
Proof.
  intros Hh Hi Hlater Hne Hclean Hpad Hcell.
  rewrite (toEmployee_at env photos row H i h h Hi).
  - unfold employeeStep. rewrite Hcell.
    assert (trim <$> split "," (String.concat ("," +:+ pad) pieces) = pieces) as Hround.
    { destruct pieces as [|p ps]; [done|].
      rewrite split_concat.
      - apply Forall_cons in Hclean as [Hp Hps]. rewrite fmap_cons, (trim_padded _ _ Hpad Hps).
        f_equal. apply clean_spec in Hp as (_ & Hl & Ht). by apply trim_fixed.
      - by apply blank_lacks_comma.
      - eapply Forall_impl; [exact Hclean|]. intros p' Hp'. simpl in *.
        by apply clean_spec in Hp' as (? & _). }
    rewrite Hround. destruct Hh as [-> | ->]; simpl; by rewrite lookup_insert_eq.
  - intros j h' Hij Hj. specialize (Hlater j h' Hij Hj).
    unfold writes. destruct Hh as [-> | ->]; repeat case_bool_decide; set_solver.
Qed.

Lemma multi_valued_round_trip_witness :
  toEmployee env0 ∅ ["name"; "club"] ["Ann"; "Chess,  Table tennis,  Go"] !! "club"
  = Some (Arr ["Chess"; "Table tennis"; "Go"]).
Proof.
  apply (multi_valued_round_trip env0 ∅ ["name"; "club"] ["Ann"; "Chess,  Table tennis,  Go"]
           "club" 1 "  " ["Chess"; "Table tennis"; "Go"]);
    [by right|reflexivity| |done|by repeat constructor|reflexivity|reflexivity].
  intros [|[|j]] h' Hlt Hj; simplify_eq/=; lia.
Defined.

(** X6. In every record the row mapper builds, every element of the
    [projects] and [club] sequences is free of commas and has no whitespace
    at either end. *)
Theorem multi_valued_pieces_clean env photos (H : list string) (R : list Row) e k l piece :
  e ∈ mapRows env photos H R →
  k = "projects" ∨ k = "club" →
  e !! k = Some (Arr l) →
  piece ∈ l →
  lacks "," piece = true ∧ leadingSpace piece = false ∧ trailingSpace piece = false.
Proof.
  intros (row & -> & _)%list_elem_of_fmap Hk He Hp.
  apply clean_spec. revert piece Hp. apply Forall_forall.
  revert l He. unfold toEmployee, reduce.
  assert (∀ l, (∅ : Employee) !! k = Some (Arr l) → Forall (λ p, clean p = true) l) as Hinit
    by (intros l; by rewrite lookup_empty).
  revert Hinit. generalize (∅ : Employee) 0.
  induction H as [|h hs IH]; intros employee i Hinv; simpl; [done|].
  apply IH. clear IH. intros l.
  destruct (decide (k ∈ writes h)) as [Hw|Hw].
  - unfold employeeStep, writes in *.
    destruct Hk as [-> | ->]; repeat (case_bool_decide; simplify_eq/=); try set_solver;
      rewrite lookup_insert_eq; destruct (row !! i); intros [= <-];
      first [apply trimmed_pieces_clean|constructor].
  - rewrite employeeStep_other by done. apply Hinv.
Qed.

Lemma multi_valued_pieces_clean_witness :
  lacks "," "B" = true ∧ leadingSpace "B" = false ∧ trailingSpace "B" = false.
Proof.
  apply (multi_valued_pieces_clean env0 ∅ ["projects"] [[" A ,  B"]]
           (toEmployee env0 ∅ ["projects"] [" A ,  B"]) "projects" ["A"; "B"] "B");
    [set_solver|by left|reflexivity|set_solver].
Defined.

(** ** Photo lookup *)

Section PhotoLookup.

Lemma setFile_valid (m : gmap string string) f :
  validFile f = true →
  ∃ name id, file_name f = Some name ∧ file_id f = Some id ∧ setFile m f = <[name := id]> m.
Proof.
  unfold validFile, setFile, truthy_opt.
  destruct (file_name f) as [name|], (file_id f) as [id|]; simpl; try done.
  - intros Hv. exists name, id. by rewrite Hv.
  - by rewrite andb_false_r.
Qed.

Lemma setFile_invalid (m : gmap string string) f : validFile f = false → setFile m f = m.
Proof.
  unfold validFile, setFile, truthy_opt.
  destruct (file_name f) as [name|], (file_id f) as [id|]; simpl; try done.
  by intros ->.
Qed.

Lemma foldl_setFile_lookup fs (m : gmap string string) name :
  foldl setFile m fs !! name = match lastNamed name fs with
                               | Some id => Some id
                               | None => m !! name
                               end.
Proof.
  unfold lastNamed. revert m. induction fs as [|f fs IH]; intros m; [done|].
  change (foldl setFile m (f :: fs)) with (foldl setFile (setFile m f) fs).
  rewrite IH. cbn [omap list_omap].
  destruct (validFile f) eqn:Hv; simpl.
  - destruct (setFile_valid m f Hv) as (n & id & Hn & Hid & ->). rewrite Hn, Hid.
    case_bool_decide as Hname; simplify_eq/=.
    + rewrite last_cons. destruct (last _); [done|]. by rewrite lookup_insert_eq.
    + destruct (last _); [done|]. rewrite lookup_insert_ne; [done|]. by intros ->.
  - by rewrite (setFile_invalid m f Hv).
Qed.

Lemma foldl_setFile_empty fs (m : gmap string string) :
  foldl setFile m fs = ∅ ↔ m = ∅ ∧ Forall (λ f, validFile f = false) fs.
Proof.
  revert m. induction fs as [|f fs IH]; intros m; simpl.
  - split; [by intros ->|by intros [-> _]].
  - rewrite IH, Forall_cons. destruct (validFile f) eqn:Hv.
    + destruct (setFile_valid m f Hv) as (n & id & _ & _ & ->).
      split; [intros [Hm _]; by apply insert_non_empty in Hm|by intros [_ [? _]]].
    + rewrite (setFile_invalid m f Hv). naive_solver.
Qed.

Lemma lastNamed_truthy name fs id : lastNamed name fs = Some id → truthy id = true.
Proof.
  intros Hl. pose proof (foldl_setFile_lookup fs ∅ name) as Hlookup.
  rewrite Hl in Hlookup.
  by apply (proj2 (buildFileMap_entries (Some fs)) name id).
Qed.

Lemma url_nonempty host id : host +:+ "/" +:+ id ≠ "".
Proof. by destruct host. Qed.

End PhotoLookup.

(** X7. The lookup built from a folder listing maps a name to the
    identifier of the last listed entry with that name among the entries
    that have both a non-empty name and a non-empty identifier; entries
    lacking either are skipped, and a later duplicate replaces an earlier
    one. *)
Theorem buildFileMap_last_wins (fs : list DriveFile) (name : string) :
  buildFileMap (Some fs) !! name = lastNamed name fs.
Proof.
  simpl. rewrite foldl_setFile_lookup, lookup_empty. by destruct (lastNamed name fs).
Qed.

(** X8. [listFilesInFolder] issues exactly one Drive query, for the entries
    of the given folder that are not trashed. If the query fails, the
    failure is passed on and nothing else happens. Otherwise the lookup is
    returned, and "No files found." is logged exactly when no listed entry
    has both a non-empty name and a non-empty identifier. *)
Theorem listFilesInFolder_effects backend folderId :
  let q := "'" +:+ folderId +:+ "' in parents and trashed=false" in
  let run := listFilesInFolder backend folderId in
  (∀ e, drive_files_list backend q = Thrown e →
        run = ([DriveFilesList q "files(id, name)"], Thrown e)) ∧
  (∀ files, drive_files_list backend q = Returned files →
     run.2 = Returned (buildFileMap files) ∧
     (∃ logs, run.1 = DriveFilesList q "files(id, name)" :: logs ∧
              Forall (λ ev, ev = ConsoleLog "No files found.") logs ∧
              (logs ≠ [] ↔ Forall (λ f, validFile f = false) (default [] files)))).
Proof.
  intros q run. subst run. unfold listFilesInFolder, driveQuery. fold q.
  unfold mbind, M_bind, mret, M_ret, lift, emit. split.
  - by intros e ->.
  - intros files ->. cbn [fst snd].
    assert (buildFileMap files = ∅ ↔ Forall (λ f, validFile f = false) (default [] files))
      as Hempty.
    { destruct files as [fs|]; simpl; [|by split].
      rewrite foldl_setFile_empty. naive_solver. }
    case_bool_decide as Hsize; simpl.
    + split; [done|]. eexists. split; [done|]. split; [by repeat constructor|].
      split; [intros _; by apply Hempty, map_size_empty_iff|done].
    + split; [done|]. exists []. split; [done|]. split; [done|].
      split; [done|]. intros Hm%Hempty. by rewrite Hm, map_size_empty in Hsize.
Qed.

Lemma listFilesInFolder_effects_witness :
  (listFilesInFolder (backend0 None) "folder").2 = Returned (buildFileMap files0) ∧
  listFilesInFolder {| drive_files_list := λ _, Thrown "denied";
                       sheets_values_get := λ _ _, Returned None |} "folder"
  = ([DriveFilesList "'folder' in parents and trashed=false" "files(id, name)"],
     Thrown "denied").
Proof.
  split.
  - destruct (listFilesInFolder_effects (backend0 None) "folder") as [_ Hok].
    by destruct (Hok files0) as [Hret _].
  - destruct (listFilesInFolder_effects
                {| drive_files_list := λ _, Thrown "denied";
                   sheets_values_get := λ _ _, Returned None |} "folder") as [Hfail _].
    by apply Hfail.
Defined.

(** X9. For any lookup and any key, [getPhotoCdn] returns a non-empty text
    exactly when the key is defined and the lookup stores a non-empty
    identifier for it, and that text is the host, a [/] and the identifier:
    it never builds a URL for a missing or empty identifier. *)
Theorem getPhotoCdn_nonempty env (photos : gmap string string) (key : option string) :
  (getPhotoCdn env photos key ≠ "" ↔
   ∃ k id, key = Some k ∧ photos !! k = Some id ∧ id ≠ "") ∧
  (∀ k id, key = Some k → photos !! k = Some id → id ≠ "" →
           getPhotoCdn env photos key = template (DRIVE_PHOTO_HOST env) +:+ "/" +:+ id).
Proof.
  unfold getPhotoCdn. split.
  - destruct key as [k|]; simpl; [|naive_solver].
    destruct (photos !! k) as [id|] eqn:Hk; [|naive_solver].
    destruct id as [|c id]; simpl; [naive_solver|].
    split; [intros _; by eexists k, _|intros _; apply url_nonempty].
  - intros k id -> Hk Hid. simpl. rewrite Hk. by destruct id.
Qed.

Lemma getPhotoCdn_nonempty_witness :
  getPhotoCdn env0 {["a.png" := "id7"]} (Some "a.png") = "https://cdn.example/id7".
Proof.
  by apply (proj2 (getPhotoCdn_nonempty env0 {["a.png" := "id7"]} (Some "a.png"))
              "a.png" "id7").
Defined.

(** X10. The [photo] field of a record, for the last [photo] column and the
    lookup built from a folder listing, is the host, a [/] and the
    identifier of the last valid listed entry named by the cell, and the
    empty string when the cell is missing or names no such entry. *)
Theorem photo_field_resolved env (fs : list DriveFile) (H : list string) (row : Row) i :
  H !! i = Some "photo" →
  (∀ j h, i < j → H !! j = Some h → h ≠ "photo") →
  toEmployee env (buildFileMap (Some fs)) H row !! "photo"
  = Some (Str match row !! i ≫= (λ cell, lastNamed cell fs) with
              | Some id => template (DRIVE_PHOTO_HOST env) +:+ "/" +:+ id
              | None => ""
              end).
Proof.
  intros Hi Hlater.
  rewrite (toEmployee_at env _ row H i "photo" "photo" Hi).
  - unfold employeeStep. simpl. rewrite lookup_insert_eq. do 2 f_equal.
    unfold getPhotoCdn. destruct (row !! i) as [cell|]; [|done].
    cbn [mbind option_bind]. rewrite foldl_setFile_lookup, lookup_empty.
    destruct (lastNamed cell fs) as [id|] eqn:Hl; [|done].
    by rewrite (lastNamed_truthy _ _ _ Hl).
  - intros j h Hij Hj. specialize (Hlater j h Hij Hj).
    unfold writes. repeat case_bool_decide; set_solver.
Qed.

Lemma photo_field_resolved_witness :
  let fs := [ {| file_id := Some "old"; file_name := Some "ann.png" |};
              {| file_id := Some ""; file_name := Some "bea.png" |};
              {| file_id := Some "new"; file_name := Some "ann.png" |} ] in
  toEmployee env0 (buildFileMap (Some fs)) ["name"; "photo"] ["Ann"; "ann.png"] !! "photo"
  = Some (Str "https://cdn.example/new") ∧
  toEmployee env0 (buildFileMap (Some fs)) ["name"; "photo"] ["Bea"; "bea.png"] !! "photo"
  = Some (Str "").
Proof.
  intros fs. split.
  - apply (photo_field_resolved env0 fs ["name"; "photo"] ["Ann"; "ann.png"] 1); [reflexivity|].
    intros [|[|j]] h Hlt Hj; simplify_eq/=; lia.
  - apply (photo_field_resolved env0 fs ["name"; "photo"] ["Bea"; "bea.png"] 1); [reflexivity|].
    intros [|[|j]] h Hlt Hj; simplify_eq/=; lia.
Defined.

(** ** Retrieval and endpoints: effects and failures *)

Section Endpoints.

Context (env : Env) (backend : Backend) (param : ApiParam).

Abbreviation q := (driveQuery (photoFolder param)).
Abbreviation listing := (listingEvent (photoFolder param)).
Abbreviation reading := (SheetsValuesGet (spreadsheetId param) (sheetRange param)).
Abbreviation listed := (listedEvents (photoFolder param)).

Lemma listFilesInFolder_run :
  listFilesInFolder backend (photoFolder param) =
  match drive_files_list backend q with
  | Returned files => (listed files, Returned (buildFileMap files))
  | Thrown e => ([listing], Thrown e)
  end.
Proof.
  unfold listFilesInFolder, listedEvents, listingEvent, mbind, M_bind, mret, M_ret, lift, emit.
  simpl.
  destruct (drive_files_list backend q) as [files|e]; simpl; [|done].
  by case_bool_decide.
Qed.

Lemma listed_quiet files :
  Forall (λ ev, responseEvent ev = false ∧ ev ≠ reading ∧
                ev ≠ ConsoleLog "No employee data found." ∧ ev ≠ ConsoleLog "No data found.")
         (listed files).
Proof. unfold listedEvents. case_bool_decide; by repeat constructor. Qed.

Lemma getAllEmployees_run :
  getAllEmployees env backend param =
  match drive_files_list backend q with
  | Thrown e => ([listing], Thrown e)
  | Returned files =>
      match sheets_values_get backend (spreadsheetId param) (sheetRange param) with
      | Thrown e =>
          (listed files ++ [reading; ConsoleError ["Error retrieving employee data:"; e]],
           Thrown e)
      | Returned (Some (headers :: dataRows)) =>
          (listed files ++ [reading],
           Returned (mapRows env (buildFileMap files) headers dataRows))
      | Returned _ =>
          (listed files ++ [reading; ConsoleLog "No employee data found."], Returned [])
      end
  end.
Proof.
  unfold getAllEmployees. unfold mbind at 1, M_bind at 1.
  rewrite listFilesInFolder_run.
  destruct (drive_files_list backend q) as [files|e]; [|done]. cbn [fst snd].
  unfold tryCatch, mbind, M_bind, mret, M_ret, lift, emit, throw. cbn [fst snd].
  destruct (sheets_values_get _ _ _) as [[[|headers dataRows]|]|e]; by cbn.
Qed.

Lemma getMasterDataSource_run :
  getMasterDataSource env backend param =
  match drive_files_list backend q with
  | Thrown e => ([listing], Thrown e)
  | Returned files =>
      match sheets_values_get backend (spreadsheetId param) (sheetRange param) with
      | Thrown e =>
          (listed files ++ [reading; ConsoleError ["Error retrieving data source:"; e]],
           Thrown e)
      | Returned rows =>
          if (length (default [] rows) <=? 1)%nat
          then (listed files ++ [reading; ConsoleLog "No data found."], Returned emptyMasterData)
          else (listed files ++ [reading],
                Returned (foldl (groupRow env (buildFileMap files)) emptyMasterData
                            (drop 2 (default [] rows))))
      end
  end.
Proof.
  unfold getMasterDataSource. unfold mbind at 1, M_bind at 1.
  rewrite listFilesInFolder_run.
  destruct (drive_files_list backend q) as [files|e]; [|done]. cbn [fst snd].
  unfold tryCatch, mbind, M_bind, mret, M_ret, lift, emit, throw. cbn [fst snd].
  destruct (sheets_values_get _ _ _) as [[rs|]|e]; [|by cbn|by cbn].
  change (default [] (Some rs)) with rs.
  destruct (Nat.leb (length rs) 1); by cbn.
Qed.

Lemma employeeAPI_run req :
  strict_eq_env (secretApi req) (API_SECRET_KEY env) = true →
  employeeAPI env backend req param =
  match (getAllEmployees env backend param).2 with
  | Returned employees =>
      ((getAllEmployees env backend param).1
         ++ [ResStatus 200; ResJson (EmployeesPayload employees)], Returned tt)
  | Thrown e =>
      ((getAllEmployees env backend param).1
         ++ [ConsoleError [e]; ResStatus 500;
             ResJson (ErrorPayload "00001" "Internal Server Error")], Returned tt)
  end.
Proof.
  intros Hok. unfold employeeAPI. rewrite (validateSecretKey_match env req Hok).
  unfold tryCatch, mbind, M_bind, mret, M_ret, lift, emit, throw. cbn [fst snd negb].
  destruct (getAllEmployees env backend param) as [t [employees|e]]; by cbn.
Qed.

Lemma masterDataAPI_run req :
  strict_eq_env (secretApi req) (API_SECRET_KEY env) = true →
  masterDataAPI env backend req param =
  match (getMasterDataSource env backend param).2 with
  | Returned masterData =>
      ((getMasterDataSource env backend param).1
         ++ [ResStatus 200; ResJson (MasterDataPayload masterData)], Returned tt)
  | Thrown e =>
      ((getMasterDataSource env backend param).1
         ++ [ConsoleError [e]; ResStatus 500;
             ResJson (ErrorPayload "00002" "Internal Server Error")], Returned tt)
  end.
Proof.
  intros Hok. unfold masterDataAPI. rewrite (validateSecretKey_match env req Hok).
  unfold tryCatch, mbind, M_bind, mret, M_ret, lift, emit, throw. cbn [fst snd negb].
  destruct (getMasterDataSource env backend param) as [t [masterData|e]]; by cbn.
Qed.

(** Neither retrieval function answers the request itself. *)
Lemma getAllEmployees_quiet :
  Forall (λ ev, responseEvent ev = false) (getAllEmployees env backend param).1.
Proof.
  rewrite getAllEmployees_run.
  destruct (drive_files_list backend q) as [files|e]; [|by repeat constructor].
  assert (Forall (λ ev, responseEvent ev = false) (listed files)) as Hl
    by (eapply Forall_impl; [apply listed_quiet|naive_solver]).
  destruct (sheets_values_get _ _ _) as [[[|headers dataRows]|]|e]; cbn [fst];
    apply Forall_app; (split; [done|by repeat constructor]).
Qed.

Lemma getMasterDataSource_quiet :
  Forall (λ ev, responseEvent ev = false) (getMasterDataSource env backend param).1.
Proof.
  rewrite getMasterDataSource_run.
  destruct (drive_files_list backend q) as [files|e]; [|by repeat constructor].
  assert (Forall (λ ev, responseEvent ev = false) (listed files)) as Hl
    by (eapply Forall_impl; [apply listed_quiet|naive_solver]).
  destruct (sheets_values_get _ _ _) as [rows|e]; [destruct (_ <=? _)%nat|]; cbn [fst];
    apply Forall_app; (split; [done|by repeat constructor]).
Qed.

End Endpoints.

(** X11. With a sheet that has no data row, [getAllEmployees] returns the
    empty sequence instead of failing; "No employee data found." is logged
    exactly when the sheet has no row at all, and is not logged for a sheet
    holding only its header row. *)
Theorem getAllEmployees_no_rows env backend param files (rows : option (list Row)) :
  drive_files_list backend (driveQuery (photoFolder param)) = Returned files →
  sheets_values_get backend (spreadsheetId param) (sheetRange param) = Returned rows →
  (length (default [] rows) ≤ 1)%nat →
  (getAllEmployees env backend param).2 = Returned [] ∧
  (ConsoleLog "No employee data found." ∈ (getAllEmployees env backend param).1
   ↔ default [] rows = []).
Proof.
  intros Hd Hs Hlen. rewrite getAllEmployees_run, Hd, Hs.
  assert (ConsoleLog "No employee data found." ∉ listedEvents (photoFolder param) files)
    as Hquiet.
  { intros Hin. pose proof (listed_quiet param files) as Hq.
    rewrite Forall_forall in Hq. by destruct (Hq _ Hin) as (_ & _ & ? & _). }
  destruct rows as [[|headers [|row dataRows]]|]; simpl in Hlen; try lia; cbn [fst snd default].
  - split; [done|]. split; [done|]. intros _. set_solver.
  - split; [done|]. split; [|done]. rewrite elem_of_app. intros [?|?]; [done|set_solver].
  - split; [done|]. split; [done|]. intros _. set_solver.
Qed.

Lemma getAllEmployees_no_rows_witness :
  (getAllEmployees env0 (backend0 (Some [["name"; "dob"]])) param0).2 = Returned [] ∧
  (getAllEmployees env0 (backend0 None) param0).2 = Returned [].
Proof.
  split.
  - apply (getAllEmployees_no_rows env0 (backend0 (Some [["name"; "dob"]])) param0 files0
             (Some [["name"; "dob"]])); [reflexivity|reflexivity|simpl; lia].
  - apply (getAllEmployees_no_rows env0 (backend0 None) param0 files0 None);
      [reflexivity|reflexivity|simpl; lia].
Defined.

(** X12. How the two retrieval functions fail. When the Drive query fails,
    both stop after that one query with the same failure: the sheet is not
    read and nothing is logged. When the Drive query answers and the Sheets
    read fails, that failure is logged once, with the function's own label,
    and thrown on unchanged. *)
Theorem retrieval_failures env backend param :
  (∀ e, drive_files_list backend (driveQuery (photoFolder param)) = Thrown e →
     getAllEmployees env backend param = ([listingEvent (photoFolder param)], Thrown e) ∧
     getMasterDataSource env backend param = ([listingEvent (photoFolder param)], Thrown e)) ∧
  (∀ files e,
     drive_files_list backend (driveQuery (photoFolder param)) = Returned files →
     sheets_values_get backend (spreadsheetId param) (sheetRange param) = Thrown e →
     getAllEmployees env backend param
     = (listedEvents (photoFolder param) files
          ++ [SheetsValuesGet (spreadsheetId param) (sheetRange param);
              ConsoleError ["Error retrieving employee data:"; e]], Thrown e) ∧
     getMasterDataSource env backend param
     = (listedEvents (photoFolder param) files
          ++ [SheetsValuesGet (spreadsheetId param) (sheetRange param);
              ConsoleError ["Error retrieving data source:"; e]], Thrown e)).
Proof.
  split.
  - intros e Hd. by rewrite getAllEmployees_run, getMasterDataSource_run, Hd.
  - intros files e Hd Hs. by rewrite getAllEmployees_run, getMasterDataSource_run, Hd, Hs.
Qed.

Lemma retrieval_failures_witness :
  let offline := {| drive_files_list := λ _, Thrown "drive down";
                    sheets_values_get := λ _ _, Returned None |} in
  getAllEmployees env0 offline param0
  = ([DriveFilesList "'folder' in parents and trashed=false" "files(id, name)"],
     Thrown "drive down").
Proof.
  intros offline.
  destruct (retrieval_failures env0 offline param0) as [Hdrive _].
  by destruct (Hdrive "drive down") as [He _].
Defined.

(** X13. Both endpoints never raise, whatever the request and the services
    do, and answer the request exactly once: the status, 200, 401 or 500,
    and then the body are the last two events, and nothing before them
    touches the response. *)
Theorem endpoints_answer_once env backend req param :
  answersOnce (employeeAPI env backend req param) ∧
  answersOnce (masterDataAPI env backend req param).
Proof.
  destruct (strict_eq_env (secretApi req) (API_SECRET_KEY env)) eqn:Hsecret.
  - split.
    + rewrite (employeeAPI_run env backend param req Hsecret).
      pose proof (getAllEmployees_quiet env backend param) as Hq.
      destruct (getAllEmployees env backend param) as [t [employees|e]]; simpl in *.
      * split; [done|]. exists t, 200, (EmployeesPayload employees).
        split_and!; [done|done|set_solver].
      * split; [done|].
        exists (t ++ [ConsoleError [e]]), 500, (ErrorPayload "00001" "Internal Server Error").
        split_and!; [by rewrite <-app_assoc| |set_solver].
        apply Forall_app. split; [done|by repeat constructor].
    + rewrite (masterDataAPI_run env backend param req Hsecret).
      pose proof (getMasterDataSource_quiet env backend param) as Hq.
      destruct (getMasterDataSource env backend param) as [t [masterData|e]]; simpl in *.
      * split; [done|]. exists t, 200, (MasterDataPayload masterData).
        split_and!; [done|done|set_solver].
      * split; [done|].
        exists (t ++ [ConsoleError [e]]), 500, (ErrorPayload "00002" "Internal Server Error").
        split_and!; [by rewrite <-app_assoc| |set_solver].
        apply Forall_app. split; [done|by repeat constructor].
  - rewrite (employeeAPI_mismatch env backend param req Hsecret).
    rewrite (masterDataAPI_mismatch env backend param req Hsecret).
    split; (split; [done|]);
      exists [], 401, (ErrorPayload "unauthorized" "Invalid secret key");
      (split_and!; [done|done|set_solver]).
Qed.

(** X14. For a request with the right secret, [employeeAPI] answers 200
    with the records of the sheet when both services answer (the empty
    sequence for a sheet without rows), and otherwise logs the failure and
    answers 500 with the fixed body of code 00001, which never carries the
    failure's text. *)
Theorem employeeAPI_outcomes env backend req param :
  strict_eq_env (secretApi req) (API_SECRET_KEY env) = true →
  (∀ files rows,
     drive_files_list backend (driveQuery (photoFolder param)) = Returned files →
     sheets_values_get backend (spreadsheetId param) (sheetRange param) = Returned rows →
     ∃ before,
       employeeAPI env backend req param
       = (before ++ [ResStatus 200;
                     ResJson (EmployeesPayload
                                match rows with
                                | Some (headers :: dataRows) =>
                                    mapRows env (buildFileMap files) headers dataRows
                                | _ => []
                                end)],
          Returned tt)) ∧
  (∀ e,
     drive_files_list backend (driveQuery (photoFolder param)) = Thrown e ∨
     (∃ files, drive_files_list backend (driveQuery (photoFolder param)) = Returned files ∧
               sheets_values_get backend (spreadsheetId param) (sheetRange param) = Thrown e) →
     ∃ before,
       employeeAPI env backend req param
       = (before ++ [ConsoleError [e]; ResStatus 500;
                     ResJson (ErrorPayload "00001" "Internal Server Error")],
          Returned tt)).
Proof.
  intros Hsecret. rewrite (employeeAPI_run env backend param req Hsecret).
  rewrite getAllEmployees_run. split.
  - intros files rows -> ->. destruct rows as [[|headers dataRows]|]; by eexists.
  - intros e [-> | (files & -> & ->)]; by eexists.
Qed.

Lemma employeeAPI_outcomes_witness :
  let req := {| req_headers := {["x-secret-key" := StrV "s3cret"]}; req_query := ∅ |} in
  let failing := {| drive_files_list := λ _, Returned files0;
                    sheets_values_get := λ _ _, Thrown "quota exceeded" |} in
  ∃ before,
    employeeAPI env0 failing req param0
    = (before ++ [ConsoleError ["quota exceeded"]; ResStatus 500;
                  ResJson (ErrorPayload "00001" "Internal Server Error")],
       Returned tt).
Proof.
  intros req failing.
  destruct (employeeAPI_outcomes env0 failing req param0) as [_ Hfail]; [reflexivity|].
  apply Hfail. right. by exists files0.
Defined.

(** X15. For a request with the right secret, [masterDataAPI] answers 200
    with the grouped lists when both services answer (all lists empty for a
    grid of at most one row), and otherwise logs the failure and answers 500
    with the fixed body of code 00002, which never carries the failure's
    text. *)
Theorem masterDataAPI_outcomes env backend req param :
  strict_eq_env (secretApi req) (API_SECRET_KEY env) = true →
  (∀ files rows,
     drive_files_list backend (driveQuery (photoFolder param)) = Returned files →
     sheets_values_get backend (spreadsheetId param) (sheetRange param) = Returned rows →
     ∃ before,
       masterDataAPI env backend req param
       = (before ++ [ResStatus 200;
                     ResJson (MasterDataPayload
                                (if (length (default [] rows) <=? 1)%nat then emptyMasterData
                                 else foldl (groupRow env (buildFileMap files)) emptyMasterData
                                        (drop 2 (default [] rows))))],
          Returned tt)) ∧
  (∀ e,
     drive_files_list backend (driveQuery (photoFolder param)) = Thrown e ∨
     (∃ files, drive_files_list backend (driveQuery (photoFolder param)) = Returned files ∧
               sheets_values_get backend (spreadsheetId param) (sheetRange param) = Thrown e) →
     ∃ before,
       masterDataAPI env backend req param
       = (before ++ [ConsoleError [e]; ResStatus 500;
                     ResJson (ErrorPayload "00002" "Internal Server Error")],
          Returned tt)).
Proof.
  intros Hsecret. rewrite (masterDataAPI_run env backend param req Hsecret).
  rewrite getMasterDataSource_run. split.
  - intros files rows -> ->. destruct (_ <=? _)%nat; by eexists.
  - intros e [-> | (files & -> & ->)]; by eexists.
Qed.

Lemma masterDataAPI_outcomes_witness :
  let req := {| req_headers := ∅; req_query := {["x-secret-key" := StrV "s3cret"]} |} in
  ∃ before,
    masterDataAPI env0 (backend0 (Some [["h1"]; ["h2"]; ["c1"; "Food"; "p.png"]])) req param0
    = (before ++ [ResStatus 200;
                  ResJson (MasterDataPayload
                             {| category := [{| key := "c1"; cat_title := Some "Food";
                                                cat_photo := "https://cdn.example/id1" |}];
                                country := []; role := []; birthplace := [];
                                yearofbirth := []; monthofbirth := []; project := [];
                                club := []; gender := []; joiningyear := []; office := [] |})],
       Returned tt).
Proof.
  intros req.
  destruct (masterDataAPI_outcomes env0
              (backend0 (Some [["h1"]; ["h2"]; ["c1"; "Food"; "p.png"]])) req param0)
    as [Hok _]; [reflexivity|].
  by apply (Hok files0 (Some [["h1"]; ["h2"]; ["c1"; "Food"; "p.png"]])).
Defined.

(** X16. Which requests pass the secret check. With a configured secret
    [s]: those whose header is the string [s], and those without a header
    (undefined or null) whose query parameter is the string [s]. With no
    configured secret: only those that carry neither a header nor a query
    parameter. An accepted request causes no event; any other gets the 401
    answer. *)
Theorem validateSecretKey_accepts env req :
  let header := req_headers req !! "x-secret-key" in
  let query := req_query req !! "x-secret-key" in
  ((validateSecretKey env req).2 = Returned true ↔
   (∃ s, API_SECRET_KEY env = Some s ∧
         (header = Some (StrV s) ∨
          ((header = None ∨ header = Some Null) ∧ query = Some (StrV s)))) ∨
   (API_SECRET_KEY env = None ∧ (header = None ∨ header = Some Null) ∧ query = None)) ∧
  (validateSecretKey env req = ([], Returned true) ∨
   validateSecretKey env req = (unauthorized, Returned false)).
Proof.
  intros header query. unfold validateSecretKey, secretApi. fold header query. split.
  - destruct header as [[|h|hs]|], query as [[|v|vs]|], (API_SECRET_KEY env) as [s|];
      simpl; repeat case_bool_decide; simpl; naive_solver.
  - destruct (strict_eq_env _ _); [by left|by right].
Qed.

(** ** Master data: labelled entries *)

Section Labelled.

Context (env : Env) (photos : gmap string string).

Lemma omap_length_le {A B} (f : A → option B) (l : list A) : (length (omap f l) ≤ length l)%nat.
Proof.
  induction l as [|x l IH]; simpl; [done|].
  unfold omap in IH. destruct (f x); simpl; lia.
Qed.

Lemma categoryEntry_key row c : categoryEntry env photos row = Some c → key c ≠ "".
Proof.
  unfold categoryEntry. destruct (row !! 0) as [[|a l]|]; simpl; try done.
  by intros [= <-].
Qed.

Lemma groupEntry_title labelCol photoCol row s :
  groupEntry env photos labelCol photoCol row = Some s → title s ≠ "".
Proof.
  unfold groupEntry. destruct (row !! labelCol) as [[|a l]|]; simpl; try done.
  by intros [= <-].
Qed.

(** The result of the grouping loop started from the empty result. *)
Lemma grouped_labelled (rows : list Row) :
  let md := foldl (groupRow env photos) emptyMasterData rows in
  (∀ c, c ∈ category md → key c ≠ "") ∧
  (∀ l s, l ∈ subLists md → s ∈ l → title s ≠ "") ∧
  (length (category md) ≤ length rows)%nat ∧
  (∀ l, l ∈ subLists md → (length l ≤ length rows)%nat).
Proof.
  intros md. subst md. rewrite foldl_groupRow. unfold subLists. simpl. split_and!.
  - intros c (row & _ & Hc)%list_elem_of_omap. by eapply categoryEntry_key.
  - intros l s Hl Hs.
    repeat (apply elem_of_cons in Hl as [->|Hl];
            [apply list_elem_of_omap in Hs as (row & _ & Hs); by eapply groupEntry_title|]).
    by apply elem_of_nil in Hl.
  - apply omap_length_le.
  - intros l Hl.
    repeat (apply elem_of_cons in Hl as [->|Hl]; [apply omap_length_le|]).
    by apply elem_of_nil in Hl.
Qed.

End Labelled.

(** X17. Whatever master data [getMasterDataSource] returns, every category
    entry has a non-empty key and every entry of the ten other lists a
    non-empty title, and no list is longer than the number of grid rows
    after the first two. *)
Theorem masterData_entries_labelled env backend param files (rows : option (list Row)) :
  drive_files_list backend (driveQuery (photoFolder param)) = Returned files →
  sheets_values_get backend (spreadsheetId param) (sheetRange param) = Returned rows →
  ∃ md, (getMasterDataSource env backend param).2 = Returned md ∧
        (∀ c, c ∈ category md → key c ≠ "") ∧
        (∀ l s, l ∈ subLists md → s ∈ l → title s ≠ "") ∧
        (length (category md) ≤ length (default [] rows) - 2)%nat ∧
        (∀ l, l ∈ subLists md → (length l ≤ length (default [] rows) - 2)%nat).
Proof.
  intros Hd Hs. rewrite getMasterDataSource_run, Hd, Hs.
  destruct (Nat.leb_spec (length (default [] rows)) 1) as [Hshort|Hlong]; cbn [snd].
  - exists emptyMasterData. split; [done|].
    destruct (grouped_labelled env (buildFileMap files) []) as (Hk & Ht & _ & _).
    split_and!; [exact Hk|exact Ht|simpl; lia|].
    intros l Hl. unfold subLists in Hl. simpl in Hl.
    repeat (apply elem_of_cons in Hl as [->|Hl]; [simpl; lia|]).
    by apply elem_of_nil in Hl.
  - eexists. split; [done|].
    destruct (grouped_labelled env (buildFileMap files) (drop 2 (default [] rows)))
      as (Hk & Ht & Hc & Hl).
    rewrite length_drop in Hc, Hl. by split_and!.
Qed.

Lemma masterData_entries_labelled_witness :
  ∃ md, (getMasterDataSource env0
           (backend0 (Some [["h1"]; ["h2"]; [""; "x"; ""; ""; "Vietnam"]])) param0).2
        = Returned md ∧
        (length (category md) ≤ 1)%nat ∧
        ∀ s, s ∈ country md → title s ≠ "".
Proof.
  destruct (masterData_entries_labelled env0
              (backend0 (Some [["h1"]; ["h2"]; [""; "x"; ""; ""; "Vietnam"]])) param0 files0
              (Some [["h1"]; ["h2"]; [""; "x"; ""; ""; "Vietnam"]]))
    as (md & Hmd & _ & Htitle & Hlen & _); [reflexivity|reflexivity|].
  exists md. split_and!; [exact Hmd|exact Hlen|].
  intros s Hs. apply (Htitle (country md)); [|done]. unfold subLists. by left.
Defined.

(** ** Filters *)

Section Filters.

Lemma filterEmployee_keeps categoryKey filterValue (apiEmployees : list Employee) :
  filterEmployee categoryKey filterValue apiEmployees
  = List.filter (keeps categoryKey filterValue) apiEmployees.
Proof.
  unfold filterEmployee, keeps.
  destruct (bool_decide (categoryKey = "club") || bool_decide (categoryKey = "projects"));
    done.
Qed.

Lemma filter_sublist {A} (f : A → bool) (l : list A) : sublist (List.filter f l) l.
Proof.
  induction l as [|x l IH]; simpl; [constructor|].
  destruct (f x); by constructor.
Qed.

Lemma filter_filter {A} (f g : A → bool) (l : list A) :
  List.filter f (List.filter g l) = List.filter (λ x, g x && f x) l.
Proof.
  induction l as [|x l IH]; simpl; [done|].
  destruct (g x); simpl; [|done]. destruct (f x); by rewrite IH.
Qed.

Lemma filter_fmap {A B} (f : B → bool) (g : A → B) (l : list A) :
  List.filter f (g <$> l) = g <$> List.filter (λ x, f (g x)) l.
Proof.
  induction l as [|x l IH]; [done|].
  rewrite fmap_cons. cbn [List.filter]. rewrite IH. by destruct (f (g x)).
Qed.

End Filters.

(** X18. [filterEmployee] only narrows: its result is a sub-sequence of the
    given records, in the same order, and it is empty when no record has
    the field at all. *)
Theorem filterEmployee_narrows categoryKey filterValue (apiEmployees : list Employee) :
  sublist (filterEmployee categoryKey filterValue apiEmployees) apiEmployees ∧
  (length (filterEmployee categoryKey filterValue apiEmployees) ≤ length apiEmployees)%nat ∧
  ((∀ it, it ∈ apiEmployees → it !! categoryKey = None) →
   filterEmployee categoryKey filterValue apiEmployees = []).
Proof.
  rewrite filterEmployee_keeps.
  pose proof (filter_sublist (keeps categoryKey filterValue) apiEmployees) as Hsub.
  split_and!; [done|by apply sublist_length|].
  clear Hsub. intros Hnone. induction apiEmployees as [|it its IH]; [done|]. simpl.
  assert (keeps categoryKey filterValue it = false) as ->.
  { unfold keeps, field. rewrite (Hnone it) by (by left). simpl. by destruct (_ || _). }
  apply IH. intros it' Hit'. apply Hnone. by right.
Qed.

Lemma filterEmployee_narrows_witness :
  filterEmployee "office" "Hanoi" [<["name" := Str "Ann"]> ∅; <["name" := Str "Bob"]> ∅] = [].
Proof.
  apply (filterEmployee_narrows "office" "Hanoi"
           [<["name" := Str "Ann"]> ∅; <["name" := Str "Bob"]> ∅]).
  intros it Hit.
  apply elem_of_cons in Hit as [->|Hit]; [done|].
  apply elem_of_cons in Hit as [->|Hit]; [done|].
  by apply elem_of_nil in Hit.
Defined.

(** X19. Filtering twice by the same field and value changes nothing more,
    and two filters give the same records in either order. *)
Theorem filterEmployee_idempotent_commutes k1 v1 k2 v2 (apiEmployees : list Employee) :
  filterEmployee k1 v1 (filterEmployee k1 v1 apiEmployees) = filterEmployee k1 v1 apiEmployees ∧
  filterEmployee k1 v1 (filterEmployee k2 v2 apiEmployees)
  = filterEmployee k2 v2 (filterEmployee k1 v1 apiEmployees).
Proof.
  rewrite !filterEmployee_keeps, !filter_filter. split.
  - apply List.filter_ext. intros it. by destruct (keeps k1 v1 it).
  - apply List.filter_ext. intros it. apply andb_comm.
Qed.

(** X20. Filtering the mapped records by a scalar header is the same as
    mapping the rows whose cell in that header's column equals the value (a
    missing cell counting as the empty string): for a header other than
    [photo], [projects], [club] and [__proto__], at its last column, that no
    later header writes. *)
Theorem filterEmployee_scalar_rows env photos (H : list string) (R : list Row) h i v :
  H !! i = Some h →
  h ∉ ["photo"; "projects"; "club"; "__proto__"] →
  (∀ j h', i < j → H !! j = Some h' → h ∉ writes h') →
  filterEmployee h v (mapRows env photos H R)
  = mapRows env photos H (List.filter (cellIs i v) R).
Proof.
  intros Hi Hh Hlater. rewrite filterEmployee_keeps. unfold mapRows.
  rewrite filter_fmap. f_equal. apply List.filter_ext. intros row.
  unfold keeps, field, cellIs.
  rewrite (toEmployee_at env photos row H i h h Hi Hlater).
  assert (or_empty (row !! i) = default "" (row !! i)) as <-
    by (by destruct (row !! i) as [[|]|]).
  apply not_elem_of_cons in Hh as [Hphoto Hh].
  apply not_elem_of_cons in Hh as [Hprojects Hh].
  apply not_elem_of_cons in Hh as [Hclub Hh].
  apply not_elem_of_cons in Hh as [Hproto _].
  unfold employeeStep, setProperty.
  rewrite !(bool_decide_eq_false_2 (h = "photo")), !(bool_decide_eq_false_2 (h = "projects")),
    !(bool_decide_eq_false_2 (h = "club")), (bool_decide_eq_false_2 (h = "__proto__")) by done.
  simpl.
  destruct (bool_decide (h = "dob")); [|destruct (bool_decide (h = "date_joined"))];
    by rewrite lookup_insert_eq.
Qed.

Lemma filterEmployee_scalar_rows_witness :
  filterEmployee "gender" "F"
    (mapRows env0 ∅ ["name"; "gender"] [["Ann"; "F"]; ["Bob"; "M"]; ["Cy"]])
  = mapRows env0 ∅ ["name"; "gender"] [["Ann"; "F"]].
Proof.
  apply (filterEmployee_scalar_rows env0 ∅ ["name"; "gender"]
           [["Ann"; "F"]; ["Bob"; "M"]; ["Cy"]] "gender" 1 "F"); [reflexivity|set_solver|].
  intros [|[|j]] h' Hlt Hj; simplify_eq/=; lia.
Defined.

(** X21. Filtering the mapped records by [projects] or [club] is the same
    as mapping the rows whose cell in that header's last column, split on
    commas and trimmed, has the value among its pieces; rows without the
    cell are dropped. *)
Theorem filterEmployee_multi_rows env photos (H : list string) (R : list Row) h i v :
  h = "projects" ∨ h = "club" →
  H !! i = Some h →
  (∀ j h', i < j → H !! j = Some h' → h' ≠ h) →
  filterEmployee h v (mapRows env photos H R)
  = mapRows env photos H (List.filter (cellLists i v) R).
Proof.
  intros Hh Hi Hlater. rewrite filterEmployee_keeps. unfold mapRows.
  rewrite filter_fmap. f_equal. apply List.filter_ext. intros row.
  unfold keeps, field, cellLists.
  rewrite (toEmployee_at env photos row H i h h Hi).
  - unfold employeeStep.
    destruct Hh as [-> | ->]; simpl; rewrite lookup_insert_eq; by destruct (row !! i).
  - intros j h' Hij Hj. specialize (Hlater j h' Hij Hj).
    unfold writes. destruct Hh as [-> | ->]; repeat case_bool_decide; set_solver.
Qed.

Lemma filterEmployee_multi_rows_witness :
  filterEmployee "club" "Chess"
    (mapRows env0 ∅ ["name"; "club"] [["Ann"; "Go, Chess"]; ["Bob"; "Chessboxing"]; ["Cy"]])
  = mapRows env0 ∅ ["name"; "club"] [["Ann"; "Go, Chess"]].
Proof.
  apply (filterEmployee_multi_rows env0 ∅ ["name"; "club"]
           [["Ann"; "Go, Chess"]; ["Bob"; "Chessboxing"]; ["Cy"]] "club" 1 "Chess");
    [by right|reflexivity|].
  intros [|[|j]] h' Hlt Hj; simplify_eq/=; lia.
Defined.

(** ** Client facade: requests and log *)

Section FacadeTrace.

Context {J : Type} (error_message : J → outcome string).

Lemma handleResponse_silent (response : Response J) :
  (handleResponse J error_message response).1 = [].
Proof.
  unfold handleResponse, mbind, M_bind, lift, throw.
  destruct (ok response); simpl; [done|].
  destruct (json response) as [errorData|e]; simpl; [|done].
  repeat case_bool_decide; simpl; by destruct (error_message errorData).
Qed.

Lemma handleResponse_error (response : Response J) errorData msg :
  ok response = false →
  json response = Returned errorData →
  error_message errorData = Returned msg →
  handleResponse J error_message response
  = ([], Thrown (statusPrefix (status response) +:+ msg)).
Proof.
  intros Hok Hjson Hmsg.
  unfold handleResponse, statusPrefix, mbind, M_bind, lift, throw.
  rewrite Hok, Hjson. simpl. repeat case_bool_decide; simpl; by rewrite Hmsg.
Qed.

(** The two requests, then what the [try] block and the [catch] add. *)
Lemma fetchApis_run apiKey firstWins (r1 r2 : outcome (Response J)) :
  fetchApis J error_message apiKey firstWins r1 r2 =
  let attempt :=
    responses ← lift (promiseAll firstWins r1 r2);
    employees ← handleResponse J error_message responses.1;
    masterData ← handleResponse J error_message responses.2;
    mret (Some (employees, masterData)) in
  match attempt.2 with
  | Returned data =>
      ([Fetch "/api/employee" "GET" (requestHeaders apiKey);
        Fetch "/api/master-data" "GET" (requestHeaders apiKey)], Returned data)
  | Thrown e =>
      ([Fetch "/api/employee" "GET" (requestHeaders apiKey);
        Fetch "/api/master-data" "GET" (requestHeaders apiKey);
        ClientConsoleError ["An error occurred:"; e]], Returned None)
  end.
Proof.
  unfold fetchApis, tryCatch, mbind, M_bind, mret, M_ret, lift, emit. cbn [fst snd].
  destruct (promiseAll firstWins r1 r2) as [[resp1 resp2]|e]; cbn [fst snd]; [|done].
  rewrite ?handleResponse_silent.
  destruct (handleResponse J error_message resp1).2 as [employees|e1]; cbn [fst snd]; [|done].
  rewrite ?handleResponse_silent.
  by destruct (handleResponse J error_message resp2).2 as [masterData|e2].
Qed.

End FacadeTrace.

(** X22. [fetchApis] always issues the two GET requests, the employee one
    first, each carrying the given key in [x-secret-key], and nothing else
    apart from at most one error log: it logs exactly one error when it
    returns [null] and none when it returns the pair. *)
Theorem fetchApis_requests_and_log {J} (error_message : J → outcome string) apiKey firstWins
    (employeesFetch masterDataFetch : outcome (Response J)) :
  let run := fetchApis J error_message apiKey firstWins employeesFetch masterDataFetch in
  ∃ logs,
    run.1 = [Fetch "/api/employee" "GET"
               [("Content-Type", "application/json"); ("x-secret-key", apiKey)];
             Fetch "/api/master-data" "GET"
               [("Content-Type", "application/json"); ("x-secret-key", apiKey)]] ++ logs ∧
    Forall (λ ev, fetchEvent ev = false) logs ∧
    (run.2 = Returned None ↔ ∃ e, logs = [ClientConsoleError ["An error occurred:"; e]]) ∧
    ((∃ pair, run.2 = Returned (Some pair)) ↔ logs = []).
Proof.
  intros run. subst run. rewrite fetchApis_run. cbv zeta.
  match goal with |- context [match ?a.2 with _ => _ end] => set (attempt := a) end.
  assert (∀ data, attempt.2 = Returned data → ∃ pair, data = Some pair) as Hsome.
  { subst attempt. unfold mbind, M_bind, mret, M_ret, lift. cbn [fst snd].
    destruct (promiseAll _ _ _) as [[resp1 resp2]|e]; cbn [fst snd]; [|done].
    destruct (handleResponse J error_message resp1).2; cbn [fst snd]; [|done].
    destruct (handleResponse J error_message resp2).2; cbn [fst snd]; [|done].
    intros data [= <-]. by eexists. }
  destruct attempt.2 as [data|e].
  - destruct (Hsome data eq_refl) as [pair ->]. exists []. cbn [fst snd].
    split_and!; [done|done| |].
    + split; [done|by intros [? ?]].
    + split; [done|by eexists].
  - eexists [_]. cbn [fst snd]. split_and!; [done|by repeat constructor| |].
    + split; [by eexists|done].
    + split; [by intros [? ?]|done].
Qed.

(** X23. What is logged for a refused request. When both fetches resolve
    and the employee response is not [ok], the logged error is the message
    of that response's body behind a prefix chosen by its status
    ("Unauthorized: " for 401, "Internal Server Error: " for 500, "Error: "
    otherwise), whatever the master-data response is; when the employee
    response is fine and the master-data response is not [ok], it is the
    master-data response's. In both cases [null] is returned. *)
Theorem fetchApis_logs_first_error {J} (error_message : J → outcome string) apiKey firstWins
    (resp1 resp2 : Response J) errorData msg :
  json (if ok resp1 then resp2 else resp1) = Returned errorData →
  error_message errorData = Returned msg →
  ok resp1 = false ∨ (ok resp2 = false ∧ ∃ employees, json resp1 = Returned employees) →
  fetchApis J error_message apiKey firstWins (Returned resp1) (Returned resp2)
  = ([Fetch "/api/employee" "GET" (requestHeaders apiKey);
      Fetch "/api/master-data" "GET" (requestHeaders apiKey);
      ClientConsoleError
        ["An error occurred:";
         statusPrefix (status (if ok resp1 then resp2 else resp1)) +:+ msg]],
     Returned None).
Proof.
  intros Hjson Hmsg Hfail. rewrite fetchApis_run. cbv zeta.
  unfold mbind at 1, M_bind at 1. cbn [lift promiseAll fst snd].
  destruct (ok resp1) eqn:Hok1.
  - destruct Hfail as [?|(Hok2 & employees & Hj1)]; [done|].
    unfold mbind at 1, M_bind at 1.
    rewrite (handleResponse_ok error_message resp1 Hok1), Hj1. cbn [fst snd].
    unfold mbind at 1, M_bind at 1.
    by rewrite (handleResponse_error error_message resp2 errorData msg Hok2 Hjson Hmsg).
  - unfold mbind at 1, M_bind at 1.
    by rewrite (handleResponse_error error_message resp1 errorData msg Hok1 Hjson Hmsg).
Qed.

Lemma fetchApis_logs_first_error_witness :
  let denied := {| ok := false; status := 401; json := Returned "Invalid secret key" |} in
  let broken := {| ok := false; status := 500; json := Thrown "not JSON" |} in
  fetchApis string Returned "guess" true (Returned denied) (Returned broken)
  = ([Fetch "/api/employee" "GET" (requestHeaders "guess");
      Fetch "/api/master-data" "GET" (requestHeaders "guess");
      ClientConsoleError ["An error occurred:"; "Unauthorized: Invalid secret key"]],
     Returned None).
Proof.
  intros denied broken.
  apply (fetchApis_logs_first_error Returned "guess" true denied broken
           "Invalid secret key" "Invalid secret key"); [reflexivity|reflexivity|by left].
Defined.
